(** * Moonstone: the request-orchestration layer around the Perplexity API

    A shallow embedding of
    - [src/unnamed/part_004]            : [callPplxApi] (transport, retries)
    - [src/src/utils/keywordExtractor.ts] : [validateAndEnrichKeywords],
                                          [extractKeywordsWithPplx]
    - [src/src/utils/resumeFormatter.ts]  : [fixResumeFormatting]
    - [src/unnamed/part_003]            : the earlier [fixResumeFormatting]
                                          with its skip-if-marked path
    - [src/src/components/KeywordMatchVisualizer.tsx] :
                                          [extractKeywordsLocally], [getKeywords]

    JavaScript strings are sequences of UTF-16 code units; a string is
    modelled as [list N], one [N] per code unit, so that [.length] is
    [length].  Literals of the source are written with [js "..."], which
    maps each ASCII character to its code unit. *)

From Stdlib Require Import String Ascii NArith ZArith List Lia.
From stdpp Require Import base gmap list.

#[local] Set Warnings "-register-all".

Abbreviation jstr := (list N).

(** ** JavaScript strings *)
Module Str.

Definition js (s : string) : jstr := map N_of_ascii (list_ascii_of_string s).

(** Code units matched by [\s] and removed by [String.prototype.trim]:
    the ECMAScript WhiteSpace and LineTerminator sets. *)
Definition is_ws (c : N) : bool :=
  existsb (N.eqb c) [9; 10; 11; 12; 13; 32; 160; 5760; 8232; 8233; 8239; 8287;
                     12288; 65279]%N
  || ((8192 <=? c) && (c <=? 8202))%N.

Definition is_line_terminator (c : N) : bool :=
  existsb (N.eqb c) [10; 13; 8232; 8233]%N.

(** [\w] of a regular expression without the [u] flag: [A-Za-z0-9_]. *)
Definition is_word (c : N) : bool :=
  (((48 <=? c) && (c <=? 57)) || ((65 <=? c) && (c <=? 90)) ||
  ((97 <=? c) && (c <=? 122)) || (c =? 95))%N.

Fixpoint trim_start (s : jstr) : jstr :=
  match s with
  | [] => []
  | c :: r => if is_ws c then trim_start r else s
  end.

Definition trim_end (s : jstr) : jstr := rev (trim_start (rev s)).

(** [String.prototype.trim] *)
Definition trim (s : jstr) : jstr := trim_end (trim_start s).

(** [s.trim() === ''] *)
Definition blank (s : jstr) : bool :=
  match trim s with [] => true | _ => false end.

Fixpoint starts_with (p s : jstr) : bool :=
  match p, s with
  | [], _ => true
  | a :: p', b :: s' => (a =? b)%N && starts_with p' s'
  | _ :: _, [] => false
  end.

(** [s.endsWith(p)] *)
Definition ends_with (p s : jstr) : bool := starts_with (rev p) (rev s).

(** [s.indexOf(p)], with [None] for -1. *)
Fixpoint index_of_from (p s : jstr) (i : nat) : option nat :=
  if starts_with p s then Some i
  else match s with
       | [] => None
       | _ :: s' => index_of_from p s' (S i)
       end.

Definition index_of (p s : jstr) : option nat := index_of_from p s 0.

(** [s.includes(p)] *)
Definition includes (p s : jstr) : bool :=
  match index_of p s with Some _ => true | None => false end.

(** [s.replace(p, r)] with a string pattern: only the first occurrence
    is replaced (the replacement strings used here contain no [$]). *)
Definition replace_first (p r s : jstr) : jstr :=
  match index_of p s with
  | Some i => take i s ++ r ++ drop (i + length p) s
  | None => s
  end.

(** [s.replace(/p1|p2|.../g, '')] for literal alternatives [ps], tried
    in order at each position, leftmost first. *)
Fixpoint remove_all_go (ps : list jstr) (fuel : nat) (s : jstr) : jstr :=
  match fuel with
  | O => s
  | S f =>
    match s with
    | [] => []
    | c :: r =>
      match find (fun p => negb (length p =? 0) && starts_with p s) ps with
      | Some p => remove_all_go ps f (drop (length p) s)
      | None => c :: remove_all_go ps f r
      end
    end
  end.

Definition remove_all (ps : list jstr) (s : jstr) : jstr :=
  remove_all_go ps (length s) s.

(** [String.prototype.toLowerCase] on Basic Latin and the Latin-1
    Supplement: on a string whose code units are all below 256 it is
    [toLowerCase]. Other code units are left unchanged here, while
    [toLowerCase] folds them (other scripts, the Kelvin sign, [İ] to two
    units, a final sigma by its context). *)
Definition lower_unit (c : N) : N :=
  (if ((65 <=? c) && (c <=? 90)) || ((192 <=? c) && (c <=? 222) && negb (c =? 215))
   then c + 32 else c)%N.

Definition to_lower (s : jstr) : jstr := map lower_unit s.

(** Decimal rendering of a length, as in a template literal. *)
Fixpoint digits_go (fuel : nat) (n : N) (acc : jstr) : jstr :=
  match fuel with
  | O => acc
  | S f =>
    let acc' := (48 + N.modulo n 10)%N :: acc in
    if (n <? 10)%N then acc' else digits_go f (N.div n 10) acc'
  end.

Definition show_nat (n : nat) : jstr := digits_go (S n) (N.of_nat n) [].

End Str.

Import Str.

(** ** Values, errors and results of JavaScript code *)
Module Js.

(** What one [axios.post] attempt ends with. [AxTimeout] is an Axios
    error with [code === 'ECONNABORTED']; [AxOther] is any other failure,
    with the upstream status and body when a response was received. *)
Inductive axios_outcome :=
| AxOk (content : jstr)
| AxTimeout
| AxOther (status : option Z) (body : jstr).

Inductive js_error :=
| SyntaxError
| ApiKeyNotFound                   (* new Error('PPLX API key not found') *)
| AxiosFailure (o : axios_outcome)  (* the Axios error object, rethrown *)
| NullThrown.                       (* throw lastError with lastError = null *)

Inductive js_result (A : Type) :=
| Ret (a : A)
| Throw (e : js_error).
Arguments Ret {A} a.
Arguments Throw {A} e.

(** Values produced by [JSON.parse]. A number keeps its source literal. *)
Inductive jsval :=
| JNull
| JBool (b : bool)
| JNum (lit : jstr)
| JStr (s : jstr)
| JArr (vs : list jsval)
| JObj (kvs : list (jstr * jsval)).

End Js.

Import Js.

(** ** [JSON.parse] *)
Module Json.

Definition json_ws (c : N) : bool := existsb (N.eqb c) [9; 10; 13; 32]%N.

Fixpoint skip_ws (s : jstr) : jstr :=
  match s with
  | c :: r => if json_ws c then skip_ws r else s
  | [] => []
  end.

Definition hex_digit (c : N) : option N :=
  (if (48 <=? c) && (c <=? 57) then Some (c - 48)
   else if (65 <=? c) && (c <=? 70) then Some (c - 55)
   else if (97 <=? c) && (c <=? 102) then Some (c - 87)
   else None)%N.

Definition hex4 (a b c d : N) : option N :=
  match hex_digit a, hex_digit b, hex_digit c, hex_digit d with
  | Some x, Some y, Some z, Some w => Some (((x * 16 + y) * 16 + z) * 16 + w)%N
  | _, _, _, _ => None
  end.

Definition simple_escape (e : N) : option N :=
  (if e =? 34 then Some 34 else if e =? 92 then Some 92
   else if e =? 47 then Some 47 else if e =? 98 then Some 8
   else if e =? 102 then Some 12 else if e =? 110 then Some 10
   else if e =? 114 then Some 13 else if e =? 116 then Some 9 else None)%N.

(** The body of a string literal after its opening quote. *)
Fixpoint string_body (s acc : jstr) : option (jstr * jstr) :=
  match s with
  | [] => None
  | c :: r =>
    if (c =? 34)%N then Some (rev acc, r)
    else if (c =? 92)%N then
      match r with
      | [] => None
      | e :: r1 =>
        if (e =? 117)%N then
          match r1 with
          | h1 :: h2 :: h3 :: h4 :: r2 =>
            match hex4 h1 h2 h3 h4 with
            | Some u => string_body r2 (u :: acc)
            | None => None
            end
          | _ => None
          end
        else match simple_escape e with
             | Some u => string_body r1 (u :: acc)
             | None => None
             end
      end
    else if (c <? 32)%N then None
    else string_body r (c :: acc)
  end.

Definition is_digit (c : N) : bool := ((48 <=? c) && (c <=? 57))%N.

Fixpoint span_digits (s : jstr) : jstr * jstr :=
  match s with
  | c :: r => if is_digit c then let '(d, r') := span_digits r in (c :: d, r') else ([], s)
  | [] => ([], [])
  end.

(** [digits+] *)
Definition digits1 (s : jstr) : option (jstr * jstr) :=
  match span_digits s with
  | ([], _) => None
  | (d, r) => Some (d, r)
  end.

(** A JSON number: an optional minus, [0] or a non-zero digit and more
    digits, an optional fraction, an optional exponent. *)
Definition number (s : jstr) : option (jstr * jstr) :=
  let '(sign, s1) := match s with
                     | c :: r => if (c =? 45)%N then ([c], r) else ([], s)
                     | [] => ([], [])
                     end in
  let int_part :=
    match s1 with
    | c :: r => if (c =? 48)%N then Some ([c], r)
                else if is_digit c then let '(d, r') := span_digits r in Some (c :: d, r')
                else None
    | [] => None
    end in
  match int_part with
  | None => None
  | Some (ip, s2) =>
    let frac := match s2 with
                | c :: r => if (c =? 46)%N then
                              match digits1 r with
                              | Some (d, r') => Some (c :: d, r')
                              | None => None
                              end
                            else Some ([], s2)
                | [] => Some ([], [])
                end in
    match frac with
    | None => None
    | Some (fp, s3) =>
      let expo := match s3 with
                  | c :: r => if (c =? 101)%N || (c =? 69)%N then
                                let '(sg, r1) := match r with
                                                 | d :: r2 => if (d =? 43)%N || (d =? 45)%N
                                                              then ([d], r2) else ([], r)
                                                 | [] => ([], [])
                                                 end in
                                match digits1 r1 with
                                | Some (d, r') => Some (c :: sg ++ d, r')
                                | None => None
                                end
                              else Some ([], s3)
                  | [] => Some ([], [])
                  end in
      match expo with
      | None => None
      | Some (ep, s4) => Some (sign ++ ip ++ fp ++ ep, s4)
      end
    end
  end.

Fixpoint value (fuel : nat) (s : jstr) : option (jsval * jstr) :=
  match fuel with
  | O => None
  | S f =>
    match skip_ws s with
    | [] => None
    | c :: r =>
      if (c =? 34)%N then
        match string_body r [] with Some (str, r') => Some (JStr str, r') | None => None end
      else if (c =? 91)%N then
        match skip_ws r with
        | d :: r' => if (d =? 93)%N then Some (JArr [], r') else elements f r []
        | [] => None
        end
      else if (c =? 123)%N then
        match skip_ws r with
        | d :: r' => if (d =? 125)%N then Some (JObj [], r') else members f r []
        | [] => None
        end
      else if starts_with (js "true") (c :: r) then Some (JBool true, drop 4 (c :: r))
      else if starts_with (js "false") (c :: r) then Some (JBool false, drop 5 (c :: r))
      else if starts_with (js "null") (c :: r) then Some (JNull, drop 4 (c :: r))
      else match number (c :: r) with
           | Some (lit, r') => Some (JNum lit, r')
           | None => None
           end
    end
  end
with elements (fuel : nat) (s : jstr) (acc : list jsval) : option (jsval * jstr) :=
  match fuel with
  | O => None
  | S f =>
    match value f s with
    | None => None
    | Some (v, r) =>
      match skip_ws r with
      | d :: r' => if (d =? 44)%N then elements f r' (v :: acc)
                   else if (d =? 93)%N then Some (JArr (rev (v :: acc)), r')
                   else None
      | [] => None
      end
    end
  end
with members (fuel : nat) (s : jstr) (acc : list (jstr * jsval)) : option (jsval * jstr) :=
  match fuel with
  | O => None
  | S f =>
    match skip_ws s with
    | q :: r =>
      if (q =? 34)%N then
        match string_body r [] with
        | None => None
        | Some (k, r1) =>
          match skip_ws r1 with
          | col :: r2 =>
            if (col =? 58)%N then
              match value f r2 with
              | None => None
              | Some (v, r3) =>
                match skip_ws r3 with
                | d :: r' => if (d =? 44)%N then members f r' ((k, v) :: acc)
                             else if (d =? 125)%N then Some (JObj (rev ((k, v) :: acc)), r')
                             else None
                | [] => None
                end
              end
            else None
          | [] => None
          end
        end
      else None
    | [] => None
    end
  end.

(** [JSON.parse(text)]; [None] is the thrown [SyntaxError]. *)
Definition parse (text : jstr) : option jsval :=
  match value (2 * length text + 2) text with
  | Some (v, rest) => match skip_ws rest with [] => Some v | _ => None end
  | None => None
  end.

End Json.

(** ** The regular expressions [\b<term>\b] with flag [i]

    The keyword code builds [new RegExp(`\\b${term}\\b`, 'i')] from the
    entries of two fixed tables.  Those entries use literal characters,
    identity escapes such as [\+], [\.] and [\/], and the quantifier [+];
    this is the fragment modelled here. Constructing such a pattern throws
    a [SyntaxError] when a [+] has nothing to repeat (as in [C++]). *)
Module Rx.

Inductive atom := RLit (c : N) | RAny.
Inductive piece := POne (a : atom) | PPlus (a : atom).

Fixpoint compile_go (src : jstr) (acc : list piece) : option (list piece) :=
  match src with
  | [] => Some (rev acc)
  | c :: r =>
    if (c =? 92)%N then
      match r with
      | [] => None
      | e :: r' => compile_go r' (POne (RLit e) :: acc)
      end
    else if (c =? 43)%N then
      match acc with
      | POne a :: acc' => compile_go r (PPlus a :: acc')
      | _ => None
      end
    else if (c =? 46)%N then compile_go r (POne RAny :: acc)
    else compile_go r (POne (RLit c) :: acc)
  end.

Definition compile (src : jstr) : option (list piece) := compile_go src [].

(** Canonicalisation of the [i] flag without [u]: ASCII case folding
    (a non-ASCII unit never folds onto an ASCII one). *)
Definition canon (c : N) : N := (if (97 <=? c) && (c <=? 122) then c - 32 else c)%N.

Definition atom_ok (a : atom) (c : N) : bool :=
  match a with
  | RLit t => (canon c =? canon t)%N
  | RAny => negb (is_line_terminator c)
  end.

(** [\b] between the unit before and the unit after a position. *)
Definition boundary (prev next : option N) : bool :=
  let w o := match o with Some c => is_word c | None => false end in
  negb (Bool.eqb (w prev) (w next)).

Fixpoint atom_run (a : atom) (s : jstr) : list (N * jstr) :=
  match s with
  | [] => []
  | c :: r => if atom_ok a c then (c, r) :: atom_run a r else []
  end.

(** The pieces, then the closing [\b], match at the start of [s]. *)
Fixpoint match_pieces (ps : list piece) (prev : option N) (s : jstr) : bool :=
  match ps with
  | [] => boundary prev (head s)
  | POne a :: ps' =>
    match s with
    | c :: r => atom_ok a c && match_pieces ps' (Some c) r
    | [] => false
    end
  | PPlus a :: ps' => existsb (fun cr => match_pieces ps' (Some (fst cr)) (snd cr)) (atom_run a s)
  end.

(** [regex.test(s)] for [\b<pieces>\b]: a match at some position. *)
Fixpoint search (ps : list piece) (prev : option N) (s : jstr) : bool :=
  (boundary prev (head s) && match_pieces ps prev s) ||
  match s with
  | [] => false
  | c :: r => search ps (Some c) r
  end.

Definition test (ps : list piece) (s : jstr) : bool := search ps None s.

End Rx.

(** ** [src/src/utils/keywordExtractor.ts] *)
Module Keywords.

Record important_term := { term : jstr; sanitized : jstr }.

Definition it (t s : string) : important_term := {| term := js t; sanitized := js s |}.

(** [importantTerms], lines 56-91: regex source and canonical spelling. *)
Definition importantTerms : list important_term :=
  [ it "C\+\+" "C++"; it "C#" "C#"; it "Python" "Python"; it "Java" "Java";
    it "Go" "Go"; it "JavaScript" "JavaScript"; it "TypeScript" "TypeScript";
    it "Node\.js" "Node.js"; it "SQL" "SQL";
    it "SKLearn" "SKLearn"; it "XGBoost" "XGBoost"; it "PyTorch" "PyTorch";
    it "Tensorflow" "Tensorflow"; it "React" "React"; it "Angular" "Angular";
    it "Kubernetes" "Kubernetes"; it "K8s" "K8s"; it "Docker" "Docker";
    it "CI\/CD" "CI/CD"; it "Jenkins" "Jenkins"; it "GitLab" "GitLab";
    it "GitHub" "GitHub"; it "GitHub Actions" "GitHub Actions";
    it "ML\/AI" "ML/AI"; it "Machine Learning" "Machine Learning";
    it "Artificial Intelligence" "Artificial Intelligence"; it "E2E" "E2E";
    it "APIs" "APIs"; it "Cloud" "Cloud"; it "Snowflake" "Snowflake" ].

(** [typeof keyword === 'string' || typeof keyword === 'number'] and then
    [String(keyword)]. [number_to_string] is [String] on the number a
    JSON literal denotes (JavaScript's number formatting). *)
Definition string_or_number (number_to_string : jstr -> jstr) (v : jsval) : option jstr :=
  match v with
  | JStr s => Some s
  | JNum lit => Some (number_to_string lit)
  | _ => None
  end.

(** [validKeywords], lines 50-53. *)
Definition validKeywords (number_to_string : jstr -> jstr) (keywords : list jsval) : list jstr :=
  List.filter (fun k => negb (length k =? 0))
    (map trim (omap (string_or_number number_to_string) keywords)).

(** The steps below call [String.prototype.toLowerCase]; it is the
    parameter [lower] here, as [String] on numbers is [number_to_string].
    The cascade of [extractKeywordsWithPplx] uses them with [to_lower],
    which is [toLowerCase] on text made of code units below 256. *)
Section Lowering.
Variable lower : jstr -> jstr.

(** Lines 100-122: one [importantTerms] entry. The [RegExp] is built
    before either test, so a pattern that does not compile throws. *)
Definition check_term (keywordSet : gset jstr) (rawResponse jobDescription : jstr)
    (missing : list jstr) (t : important_term) : js_result (list jstr) :=
  if bool_decide (lower (sanitized t) ∈ keywordSet) then Ret missing
  else match Rx.compile (term t) with
       | None => Throw SyntaxError
       | Some re =>
         if includes (sanitized t) jobDescription || Rx.test re jobDescription
         then Ret (missing ++ [sanitized t])
         else if Rx.test re rawResponse then Ret (missing ++ [sanitized t])
         else Ret missing
       end.

Fixpoint check_terms (keywordSet : gset jstr) (rawResponse jobDescription : jstr)
    (missing : list jstr) (ts : list important_term) : js_result (list jstr) :=
  match ts with
  | [] => Ret missing
  | t :: ts' =>
    match check_term keywordSet rawResponse jobDescription missing t with
    | Ret m => check_terms keywordSet rawResponse jobDescription m ts'
    | Throw e => Throw e
    end
  end.

(** Lines 124-141: the direct text searches for C++, Python and Java. *)
Definition direct_fallbacks (keywordSet : gset jstr) (jobDescription : jstr)
    (missing : list jstr) : list jstr :=
  let m1 := if negb (bool_decide (js "c++" ∈ keywordSet)) && negb (bool_decide (js "C++" ∈ missing))
               && (includes (js "C++") jobDescription || includes (js "c++") jobDescription)
            then missing ++ [js "C++"] else missing in
  let m2 := if negb (bool_decide (js "python" ∈ keywordSet)) && negb (bool_decide (js "Python" ∈ m1))
               && includes (js "python") (lower jobDescription)
            then m1 ++ [js "Python"] else m1 in
  if negb (bool_decide (js "java" ∈ keywordSet)) && negb (bool_decide (js "Java" ∈ m2))
     && includes (js "java ") (lower jobDescription)
  then m2 ++ [js "Java"] else m2.

Definition keywordSet_of (valid : list jstr) : gset jstr := list_to_set (map lower valid).

(** [missingTerms] after line 141. *)
Definition missingTerms (number_to_string : jstr -> jstr) (keywords : list jsval)
    (rawResponse jobDescription : jstr) : js_result (list jstr) :=
  let keywordSet := keywordSet_of (validKeywords number_to_string keywords) in
  match check_terms keywordSet rawResponse jobDescription [] importantTerms with
  | Ret m => Ret (direct_fallbacks keywordSet jobDescription m)
  | Throw e => Throw e
  end.

(** Lines 147-155: [filter] with a [seen] set, keyed by [toLowerCase]. *)
Fixpoint dedup_seen (seen : gset jstr) (l : list jstr) : list jstr :=
  match l with
  | [] => []
  | k :: r =>
    if bool_decide (lower k ∈ seen) then dedup_seen seen r
    else k :: dedup_seen ({[lower k]} ∪ seen) r
  end.

(** [validateAndEnrichKeywords], lines 38-164. The argument is an array
    (both callers check [Array.isArray] first). *)
Definition validateAndEnrichKeywords (number_to_string : jstr -> jstr) (keywords : list jsval)
    (rawResponse jobDescription : jstr) : js_result (list jstr) :=
  match missingTerms number_to_string keywords rawResponse jobDescription with
  | Ret m => Ret (dedup_seen ∅ (validKeywords number_to_string keywords ++ m))
  | Throw e => Throw e
  end.

(** Spec side of "de-duplicate case-insensitively, preserving first-seen
    order": keep an element exactly when no earlier element has the same
    lower-case form. [pre] is the part of the list already passed. *)
Fixpoint keep_first_seen_go (pre l : list jstr) : list jstr :=
  match l with
  | [] => []
  | k :: r =>
    if existsb (fun p => bool_decide (lower p = lower k)) pre
    then keep_first_seen_go (pre ++ [k]) r
    else k :: keep_first_seen_go (pre ++ [k]) r
  end.

Definition keep_first_seen (l : list jstr) : list jstr := keep_first_seen_go [] l.

End Lowering.

(** *** The parsing cascade, lines 305-403 *)

(** [result.replace(/```json|```/g, '')] *)
Definition strip_fences (s : jstr) : jstr := remove_all [js "```json"; js "```"] s.

(** [result.match(/\[([\s\S]*?)\]/)[0]]: from the first [[] to the first
    []] after it. *)
Definition bracket_match (s : jstr) : option jstr :=
  match index_of [91%N] s with
  | None => None
  | Some i =>
    match index_of [93%N] (drop (S i) s) with
    | None => None
    | Some j => Some (take (j + 2) (drop i s))
    end
  end.

(** [s.split(',')] *)
Fixpoint split_go (sep : N) (s cur : jstr) : list jstr :=
  match s with
  | [] => [rev cur]
  | c :: r => if (c =? sep)%N then rev cur :: split_go sep r [] else split_go sep r (c :: cur)
  end.

Definition split (sep : N) (s : jstr) : list jstr := split_go sep s [].

(** Lines 348-352. *)
Definition comma_candidates (result : jstr) : list jstr :=
  List.filter (fun k => negb (length k =? 0) && negb (includes (js "```") k))
    (map trim (split 44%N (List.filter (fun c => negb (existsb (N.eqb c) [91; 93; 34; 39; 96]%N)) result))).

(** Line 361, the global match of the two quoted-phrase alternatives
    (double quotes, then single quotes): all quoted substrings, leftmost
    first, each with its quotes. *)
Fixpoint quoted_go (fuel : nat) (s : jstr) : list jstr :=
  match fuel with
  | O => []
  | S f =>
    match s with
    | [] => []
    | c :: r =>
      if (c =? 34)%N || (c =? 39)%N then
        match index_of [c] r with
        | Some j => take (j + 2) s :: quoted_go f (drop (S j) r)
        | None => quoted_go f r
        end
      else quoted_go f r
    end
  end.

Definition quoted_phrases (s : jstr) : list jstr := quoted_go (length s) s.

(** Lines 364-366. *)
Definition phrases_of (qs : list jstr) : list jstr :=
  List.filter (fun p => negb (length p =? 0))
    (map (fun q => trim (List.filter (fun c => negb ((c =? 34)%N || (c =? 39)%N)) q)) qs).

(** [technicalTerms], lines 377-382. *)
Definition technicalTerms : list jstr :=
  map js [ "Python"; "C++"; "Java"; "Go"; "JavaScript"; "TypeScript";
           "Kubernetes"; "K8s"; "Docker"; "CI/CD"; "Jenkins"; "GitLab"; "GitHub Actions";
           "SKLearn"; "XGBoost"; "PyTorch"; "Tensorflow"; "Machine Learning"; "ML/AI";
           "E2E"; "APIs"; "Cloud"; "Data"; "Infrastructure"; "Snowflake" ]%string.

(** [term.replace(/\//g, '\\/')] *)
Definition escape_slashes (t : jstr) : jstr :=
  flat_map (fun c => if (c =? 47)%N then [92; 47]%N else [c]) t.

(** Lines 384-390: [jobMatches]; [new RegExp] throws on a bad pattern. *)
Fixpoint manual_matches (jobDescription : jstr) (acc : list jstr) (ts : list jstr)
    : js_result (list jstr) :=
  match ts with
  | [] => Ret acc
  | t :: ts' =>
    match Rx.compile (escape_slashes t) with
    | None => Throw SyntaxError
    | Some re =>
      manual_matches jobDescription (if Rx.test re jobDescription then acc ++ [t] else acc) ts'
    end
  end.

(** The cascade after a non-blank [result]. [Ret (Some ks)] is
    [return storeResultInCache(ks)], [Ret None] is [return []] at line
    398, and [Throw] reaches the [catch (parseError)] of line 399.
    A throw in the first two stages is caught by their own [try]. *)
Definition parse_cascade (number_to_string : jstr -> jstr) (jobDescription result : jstr)
    : js_result (option (list jstr)) :=
  let validate ks := validateAndEnrichKeywords to_lower number_to_string ks result jobDescription in
  let stage3_4 :=
    let cands := comma_candidates result in
    if includes [44%N] result && negb (length cands =? 0) then
      match validate (map JStr cands) with Ret ks => Ret (Some ks) | Throw e => Throw e end
    else
      match quoted_phrases result with
      | [] =>
        match manual_matches jobDescription [] technicalTerms with
        | Ret [] => Ret None
        | Ret ms => Ret (Some ms)
        | Throw e => Throw e
        end
      | qs =>
        match validate (map JStr (phrases_of qs)) with Ret ks => Ret (Some ks) | Throw e => Throw e end
      end in
  let stage2 :=
    match bracket_match result with
    | Some arrayText =>
      match Json.parse arrayText with
      | Some (JArr ks) => match validate ks with Ret r => Ret (Some r) | Throw _ => stage3_4 end
      | _ => stage3_4
      end
    | None => stage3_4
    end in
  match Json.parse (trim (strip_fences result)) with
  | Some (JArr ks) => match validate ks with Ret r => Ret (Some r) | Throw _ => stage2 end
  | _ => stage2
  end.

End Keywords.

(** ** [callPplxApi], [src/unnamed/part_004] lines 24-109

    [ax i] is how the [i]-th [axios.post] attempt ends ([AxOk] carries
    [choices[0]?.message?.content || '']). The prompts, model, max_tokens
    and temperature only shape the request body and are left out. *)
Module Transport.

Record options := { timeoutMs : option Z; retries : option Z }.

Inductive event :=
| Post (attempt : nat) (timeout : Z)  (* one axios.post *)
| Wait (ms : Z).                      (* await new Promise(setTimeout) *)

(** [options.x || d] for a number: [undefined] and [0] give [d]. *)
Definition or_default (o : option Z) (d : Z) : Z :=
  match o with
  | None => d
  | Some z => if (z =? 0)%Z then d else z
  end.

(** The [while (retryCount <= maxRetries)] loop, lines 46-108. *)
Fixpoint attempt_loop (maxRetries timeout : Z) (ax : nat -> axios_outcome)
    (retryCount fuel : nat) (lastError : js_error) : list event * js_result jstr :=
  match fuel with
  | O => ([], Throw lastError)
  | S f =>
    if (Z.of_nat retryCount <=? maxRetries)%Z then
      match ax retryCount with
      | AxOk content => ([Post retryCount timeout], Ret content)
      | AxTimeout =>
        if (Z.of_nat retryCount <? maxRetries)%Z then
          let '(evs, r) := attempt_loop maxRetries timeout ax (S retryCount) f
                             (AxiosFailure AxTimeout) in
          (Post retryCount timeout :: Wait 2000 :: evs, r)
        else ([Post retryCount timeout], Throw (AxiosFailure AxTimeout))
      | o => ([Post retryCount timeout], Throw (AxiosFailure o))
      end
    else ([], Throw lastError)
  end.

(** [apiKey] is [process.env.REACT_APP_PPLX_API_KEY]. *)
Definition callPplxApi (apiKey : option jstr) (opts : options) (ax : nat -> axios_outcome)
    : list event * js_result jstr :=
  match apiKey with
  | None | Some [] => ([], Throw ApiKeyNotFound)
  | Some _ =>
    let timeout := or_default (timeoutMs opts) 60000 in
    let maxRetries := or_default (retries opts) 2 in
    attempt_loop maxRetries timeout ax 0 (S (Z.to_nat maxRetries)) NullThrown
  end.

End Transport.

(** ** The Extraction Orchestrator: [extractKeywordsWithPplx], lines 1-29
    and 166-411 of [keywordExtractor.ts]

    The module-level [globalState] and [keywordCache] are one explicit
    state. [Date.now()] is the argument [now] (milliseconds). *)
Module Extract.
Import Keywords.

Record cache_entry := { ce_keywords : list jstr; ce_timestamp : Z }.

Record gstate := {
  apiValidated : bool;
  pendingRequests : gset jstr;
  keywordCache : gmap jstr cache_entry
}.

Definition init_state : gstate :=
  {| apiValidated := false; pendingRequests := ∅; keywordCache := ∅ |}.

Definition CACHE_EXPIRY_MS : Z := 3600000.

Definition add_pending (key : jstr) (G : gstate) : gstate :=
  {| apiValidated := apiValidated G; pendingRequests := {[key]} ∪ pendingRequests G;
     keywordCache := keywordCache G |}.

Definition delete_pending (key : jstr) (G : gstate) : gstate :=
  {| apiValidated := apiValidated G; pendingRequests := pendingRequests G ∖ {[key]};
     keywordCache := keywordCache G |}.

(** [.replace(/\s+/g, ' ')] *)
Fixpoint collapse_ws (in_ws : bool) (s : jstr) : jstr :=
  match s with
  | [] => []
  | c :: r =>
    if is_ws c then (if in_ws then collapse_ws true r else 32%N :: collapse_ws true r)
    else c :: collapse_ws false r
  end.

(** [createCacheKey], lines 23-29. *)
Definition createCacheKey (jobDescription : jstr) : jstr :=
  collapse_ws false (take 50 (trim jobDescription)) ++ js "_" ++ show_nat (length jobDescription).

(** [isApiValidationJob], lines 170-178. *)
Definition isApiValidationJob (jobDescription : jstr) : bool :=
  let cleaned := to_lower (trim jobDescription) in
  (length cleaned <? 50) &&
  (includes (js "software engineer") cleaned || includes (js "react") cleaned
   || includes (js "javascript") cleaned).

Definition validation_keywords : list jstr :=
  [js "Software Engineer"; js "React"; js "JavaScript"].

(** Lines 237-239: every unit outside [\w], [\s] and the punctuation
    , . ; : ' (double quote) ! ? ( ) - is removed, then [trim]. *)
Definition cleanJobDescription (jobDescription : jstr) : jstr :=
  trim (List.filter (fun c => is_word c || is_ws c || existsb (N.eqb c) (js ",.;:'" ++ [34%N] ++ js "!?()-"))
          jobDescription).

(** [storeResultInCache], lines 291-303. *)
Definition storeResultInCache (G : gstate) (jobDescription : jstr) (now : Z)
    (keywords : list jstr) : gstate :=
  {| apiValidated := apiValidated G || isApiValidationJob jobDescription;
     pendingRequests := pendingRequests G;
     keywordCache := <[createCacheKey jobDescription :=
                         {| ce_keywords := keywords; ce_timestamp := now |}]> (keywordCache G) |}.

(** How a synchronous run of the function ends: it returns, or it has
    marked the key pending and now awaits [callPplxApi]. *)
Inductive fresh_outcome :=
| FDone (G : gstate) (r : list jstr)
| FCall (G : gstate).

(** The first synchronous run ends there, or at the polling [await]. *)
Inductive start_outcome :=
| SNow (o : fresh_outcome)
| SPoll.

(** Lines 225-244: cache check, [pendingRequests.add], and the short-input
    return inside the [try] (its [finally] deletes the key again). *)
Definition extract_fresh (G : gstate) (jobDescription : jstr) (now : Z) : fresh_outcome :=
  let key := createCacheKey jobDescription in
  let go :=
    let G1 := add_pending key G in
    if length (cleanJobDescription jobDescription) <? 20
    then FDone (delete_pending key G1) []
    else FCall G1 in
  match keywordCache G !! key with
  | Some e => if (now - ce_timestamp e <? CACHE_EXPIRY_MS)%Z then FDone G (ce_keywords e) else go
  | None => go
  end.

(** Lines 185-212: up to the first [await]. *)
Definition extract_start (G : gstate) (jobDescription : jstr) (now : Z) : start_outcome :=
  if blank jobDescription then SNow (FDone G [])
  else if isApiValidationJob jobDescription && apiValidated G then SNow (FDone G validation_keywords)
  else if bool_decide (createCacheKey jobDescription ∈ pendingRequests G) then SPoll
  else SNow (extract_fresh G jobDescription now).

(** The condition of the polling loop, line 212. *)
Definition poll_again (G : gstate) (jobDescription : jstr) (attempts : nat) : bool :=
  bool_decide (createCacheKey jobDescription ∈ pendingRequests G) && (attempts <? 10).

(** Lines 217-230, after the polling loop has ended. *)
Definition extract_after_poll (G : gstate) (jobDescription : jstr) (now : Z) : fresh_outcome :=
  match keywordCache G !! createCacheKey jobDescription with
  | Some e => FDone G (ce_keywords e)
  | None => extract_fresh G jobDescription now
  end.

(** The [try] body after [await callPplxApi(...)] (lines 274-403); [tr] is
    what the call resolved or rejected with. A rejection propagates;
    the cascade's own throws are caught at line 399. *)
Definition extraction_body (number_to_string : jstr -> jstr) (G : gstate) (jobDescription : jstr)
    (now : Z) (tr : js_result jstr) : js_result (gstate * list jstr) :=
  match tr with
  | Throw e => Throw e
  | Ret result =>
    if blank result then Ret (G, [])
    else match parse_cascade number_to_string jobDescription result with
         | Ret (Some ks) => Ret (storeResultInCache G jobDescription now ks, ks)
         | Ret None => Ret (G, [])
         | Throw _ => Ret (G, [])
         end
  end.

(** The options of the call at lines 274-280: neither a timeout nor a
    retry count is given. *)
Definition extract_options : Transport.options :=
  {| Transport.timeoutMs := None; Transport.retries := None |}.

(** The [catch (error)] of line 404 and the [finally] of line 407. *)
Definition extract_after_transport (number_to_string : jstr -> jstr) (G : gstate)
    (jobDescription : jstr) (now : Z) (tr : js_result jstr) : gstate * list jstr :=
  let '(G', r) := match extraction_body number_to_string G jobDescription now tr with
                  | Ret p => p
                  | Throw _ => (G, [])
                  end in
  (delete_pending (createCacheKey jobDescription) G', r).

(** The polling loop, lines 211-215, run by itself: [obs k] is the state
    found after the [k]-th wait of 500 ms, when other calls have run. *)
Fixpoint poll_loop (obs : nat -> gstate) (jobDescription : jstr) (attempts fuel : nat)
    (G : gstate) : gstate :=
  match fuel with
  | O => G
  | S f =>
    if poll_again G jobDescription attempts
    then poll_loop obs jobDescription (S attempts) f (obs (S attempts))
    else G
  end.

Definition finish (number_to_string : jstr -> jstr) (jobDescription : jstr) (now : Z)
    (tr : js_result jstr) (o : fresh_outcome) : gstate * list jstr :=
  match o with
  | FDone G' r => (G', r)
  | FCall G1 => extract_after_transport number_to_string G1 jobDescription now tr
  end.

(** One call of [extractKeywordsWithPplx]: from state [G], with the
    states [obs] met while polling and the outcome [tr] of [callPplxApi].
    The result type has no exception: every throw inside the function is
    caught (lines 317, 337, 399, 404), and nothing before the [try] can
    throw on a string argument. *)
Definition extractKeywordsWithPplx (number_to_string : jstr -> jstr) (G : gstate)
    (jobDescription : jstr) (now : Z) (obs : nat -> gstate) (tr : js_result jstr)
    : gstate * list jstr :=
  match extract_start G jobDescription now with
  | SNow o => finish number_to_string jobDescription now tr o
  | SPoll => finish number_to_string jobDescription now tr
               (extract_after_poll (poll_loop obs jobDescription 0 10 G) jobDescription now)
  end.

End Extract.


(** ** [fixResumeFormatting], [src/src/utils/resumeFormatter.ts] *)
Module Formatter.

Definition MARKER : jstr := js "___FORMATTED___".

Definition MAX_CONTENT_LENGTH : nat := 6000.

(** Lines 20-22: [resumeContent.replace('___FORMATTED___', '')] removes
    the first occurrence of the marker. *)
Definition cleanContent (resumeContent : jstr) : jstr :=
  if ends_with MARKER resumeContent then replace_first MARKER [] resumeContent else resumeContent.

Definition isHtml (c : jstr) : bool := includes (js "<") c && includes (js ">") c.

(** Lines 37-39: the text sent upstream. *)
Definition truncatedContent (c : jstr) : jstr :=
  if MAX_CONTENT_LENGTH <? length c
  then take MAX_CONTENT_LENGTH c ++ (if isHtml c then js " ..." else js "...")
  else c.

(** The options of the call at lines 117-124. *)
Definition format_options : Transport.options :=
  {| Transport.timeoutMs := Some 60000%Z; Transport.retries := Some 2%Z |}.

(** Lines 199-203. *)
Definition strip_code_fences (fc : jstr) : jstr :=
  trim (remove_all [js "```"] (remove_all [js "```markdown"] (remove_all [js "```html"] fc))).

Definition explanationMarkers : list jstr :=
  [js "### Changes Made:"; js "Changes Made:"; js "Here's the formatted";
   js "I've formatted"; js "Here is the formatted"].

(** Lines 214-219: cut at a marker found at an index [> 0]. *)
Definition cut_explanations (markers : list jstr) (fc : jstr) : jstr :=
  fold_left (fun fc m => match index_of m fc with
                         | Some (S i) => trim (take (S i) fc)
                         | _ => fc
                         end) markers fc.

Definition BULLET : N := 8226.

Definition GLYPHS : list N := [9679; 9675; 9670; 9671; 9642; 9643; 9632; 9633]%N.

(** [s.replace(/[gs]\s*/g, '- ')]: [skip] is set while the [\s*] after a
    glyph is being consumed. *)
Fixpoint glyph_pass (gs : list N) (skip : bool) (s : jstr) : jstr :=
  match s with
  | [] => []
  | c :: r =>
    if skip && is_ws c then glyph_pass gs true r
    else if existsb (N.eqb c) gs then 45%N :: 32%N :: glyph_pass gs true r
    else c :: glyph_pass gs false r
  end.

(** [s.replace(/\n+\s*•\s*/g, '\n- ')]: [NRun buf] holds a run of white
    space that started with a line feed, [NSkip] consumes the [\s*] after
    a replaced bullet. *)
Inductive nl_state := NNormal | NRun (buf : jstr) | NSkip.

Fixpoint nl_pass (st : nl_state) (s : jstr) : jstr :=
  match s with
  | [] => match st with NRun buf => rev buf | _ => [] end
  | c :: r =>
    match st with
    | NRun buf =>
      if (c =? BULLET)%N then [10; 45; 32]%N ++ nl_pass NSkip r
      else if is_ws c then nl_pass (NRun (c :: buf)) r
      else rev buf ++ c :: nl_pass NNormal r
    | NSkip =>
      if is_ws c then nl_pass NSkip r
      else if (c =? 10)%N then nl_pass (NRun [c]) r
      else c :: nl_pass NNormal r
    | NNormal =>
      if (c =? 10)%N then nl_pass (NRun [c]) r else c :: nl_pass NNormal r
    end
  end.

(** Lines 247-250. *)
Definition final_cleanup (s : jstr) : jstr :=
  nl_pass NNormal (glyph_pass GLYPHS false (glyph_pass [BULLET] false s)).

(** The cleaned model output before the merge (lines 128-219). The
    bullet rewrites and the section-scoped touch-ups of lines 128-196 are
    the argument [postprocess]; every statement below holds for all of
    them. *)
Definition cleaned_prefix (postprocess : jstr -> jstr) (response : jstr) : jstr :=
  cut_explanations explanationMarkers (strip_code_fences (postprocess response)).

(** Lines 230-253, after a successful call. *)
Definition format_response (postprocess : jstr -> jstr) (cc response : jstr) : jstr :=
  let fc := cleaned_prefix postprocess response in
  if blank fc then cc ++ MARKER
  else
    let finalContent :=
      if (MAX_CONTENT_LENGTH <? length cc) && negb (length fc =? 0)
      then fc ++ drop MAX_CONTENT_LENGTH cc else fc in
    final_cleanup finalContent ++ MARKER.

(** [fixResumeFormatting], lines 9-259; the [catch] of line 254 turns
    every rejection of [callPplxApi] into the original content. *)
Definition fixResumeFormatting (postprocess : jstr -> jstr) (apiKey : option jstr)
    (ax : nat -> axios_outcome) (resumeContent : jstr) : jstr :=
  if blank resumeContent then []
  else
    let cc := cleanContent resumeContent in
    match snd (Transport.callPplxApi apiKey format_options ax) with
    | Throw _ => cc ++ MARKER
    | Ret response => format_response postprocess cc response
    end.

End Formatter.

(** ** The earlier [fixResumeFormatting], [src/unnamed/part_003] lines 199-335

    It calls [axios.post] itself, once, without retries. The second
    component of the result counts the requests sent. *)
Module LegacyFormatter.
Import Formatter.

Definition MAX_CONTENT_LENGTH : nat := 3000.

Definition explanationMarkers : list jstr :=
  [js "### Changes Made:"; js "Changes Made:"; js "Here's the formatted"; js "I've formatted"].

Definition format_response (resumeContent content : jstr) : jstr :=
  let fc := trim (remove_all [js "```"] (remove_all [js "```html"] content)) in
  let fc := cut_explanations explanationMarkers fc in
  if blank fc then resumeContent ++ MARKER
  else
    let finalContent :=
      if (MAX_CONTENT_LENGTH <? length resumeContent) && negb (length fc =? 0)
      then fc ++ drop MAX_CONTENT_LENGTH resumeContent else fc in
    finalContent ++ MARKER.

Definition fixResumeFormatting (apiKey : option jstr) (ax : axios_outcome)
    (resumeContent : jstr) : jstr * nat :=
  if blank resumeContent then ([], 0)
  else if ends_with MARKER resumeContent then (resumeContent, 0)
  else match apiKey with
       | None | Some [] => (resumeContent ++ MARKER, 0)
       | Some _ =>
         match ax with
         | AxOk content => (format_response resumeContent content, 1)
         | _ => (resumeContent ++ MARKER, 1)
         end
       end.

End LegacyFormatter.

(** ** [src/src/components/KeywordMatchVisualizer.tsx] *)
Module Visualizer.

(** [text.replace(/<[^>]*>/g, '')] *)
Fixpoint strip_tags (fuel : nat) (s : jstr) : jstr :=
  match fuel with
  | O => s
  | S f =>
    match s with
    | [] => []
    | c :: r =>
      if (c =? 60)%N then
        match index_of [62%N] r with
        | Some j => strip_tags f (drop (S j) r)
        | None => c :: strip_tags f r
        end
      else c :: strip_tags f r
    end
  end.

(** [s.split(/\s+/)] *)
Fixpoint split_ws_go (in_ws : bool) (s cur : jstr) : list jstr :=
  match s with
  | [] => [rev cur]
  | c :: r =>
    if is_ws c then (if in_ws then split_ws_go true r cur else rev cur :: split_ws_go true r [])
    else split_ws_go false r (c :: cur)
  end.

Definition split_ws (s : jstr) : list jstr := split_ws_go false s [].

Definition commonWords : list jstr :=
  map js [ "the"; "and"; "to"; "of"; "a"; "in"; "for"; "is"; "on"; "that"; "by";
           "this"; "with"; "i"; "you"; "it"; "not"; "or"; "be"; "are"; "from"; "at";
           "as"; "your"; "have"; "more"; "an"; "was"; "we"; "will"; "can"; "all"; "has" ]%string.

(** [Array.from(new Set(xs))]: first occurrences, in order. *)
Fixpoint unique (seen : gset jstr) (xs : list jstr) : list jstr :=
  match xs with
  | [] => []
  | x :: r => if bool_decide (x ∈ seen) then unique seen r else x :: unique ({[x]} ∪ seen) r
  end.

(** [extractKeywordsLocally], lines 211-233. *)
Definition extractKeywordsLocally (text : jstr) : list jstr :=
  let plainText := strip_tags (length text) text in
  let words := split_ws (to_lower plainText) in
  let cands := List.filter (fun w => (3 <? length w) && negb (bool_decide (w ∈ commonWords)))
                 (map (List.filter is_word) words) in
  take 20 (unique ∅ cands).

(** [createFingerprint], lines 19-23. *)
Definition createFingerprint (text : jstr) : jstr := Extract.createCacheKey text.

Record vis_state := {
  useApiKeywords : bool;
  isValidated : bool;
  removedKeywords : gset jstr;
  lastProcessedJob : jstr;
  processingJob : jstr
}.

(** [getKeywords], lines 91-194: the list handed to [setKeywords], or
    [None] when it returns without setting one. [api] is what
    [extractKeywordsWithPplx] resolves to; [validateApiOnce] succeeds
    when its probe returns a non-empty list. *)
Definition getKeywords (api : jstr -> list jstr) (V : vis_state) (jobDesc : jstr)
    : option (list jstr) :=
  let keep ks := List.filter (fun k => negb (bool_decide (k ∈ removedKeywords V))) ks in
  if length (trim jobDesc) <? 50 then Some []
  else if bool_decide (processingJob V = jobDesc)
          || bool_decide (createFingerprint jobDesc = createFingerprint (lastProcessedJob V))
  then None
  else
    let validated :=
      isValidated V
      || (useApiKeywords V && negb (length (api (js "Software Engineer React")) =? 0)) in
    let apiKeywords := if useApiKeywords V && validated then api jobDesc else [] in
    match apiKeywords with
    | _ :: _ => Some (keep apiKeywords)
    | [] => Some (keep (extractKeywordsLocally jobDesc))
    end.

(** [checkMatchedKeywords], lines 236-255: the matched keywords and the
    active ones ([removed] is the component's [removedKeywords]); the
    percentage shown is computed from their two lengths. *)
Definition checkMatchedKeywords (removed : gset jstr) (keywordList : list jstr) (resume : jstr)
    : list jstr * list jstr :=
  let plainResume := to_lower (strip_tags (length resume) resume) in
  let activeKeywords := List.filter (fun k => negb (bool_decide (k ∈ removed))) keywordList in
  let matched := List.filter (fun k => includes (to_lower k) plainResume) activeKeywords in
  (matched, activeKeywords).

End Visualizer.

(** ** The earlier [extractKeywordsWithPplx], [src/unnamed/part_003] lines 37-194

    It calls [axios.post] itself, once, with no cache, no pending set and
    no enrichment. The second component of the result counts the requests
    sent. *)
Module LegacyExtract.
Import Keywords.

(** [.filter(keyword => typeof keyword === 'string' && keyword.length > 0)] *)
Definition string_keywords (vs : list jsval) : list jstr :=
  omap (fun v => match v with
                 | JStr s => if length s =? 0 then None else Some s
                 | _ => None
                 end) vs.

(** Lines 140-144: remove [[], []], double and single quotes, split on
    commas, trim, keep the non-empty pieces. *)
Definition comma_candidates (result : jstr) : list jstr :=
  List.filter (fun k => negb (length k =? 0))
    (map trim (split 44%N (List.filter (fun c => negb (existsb (N.eqb c) [91; 93; 34; 39]%N)) result))).

Definition stopWords : list jstr := map js ["the"; "and"; "that"; "with"; "for"; "from"]%string.

(** Lines 161-165. *)
Definition possibleSkills (result : jstr) : list jstr :=
  List.filter (fun w => (3 <? length w) && negb (bool_decide (to_lower w ∈ stopWords)))
    (Visualizer.split_ws result).

(** Lines 115-172, after a non-blank [result]. A [JSON.parse] of the
    bracketed part that throws is caught at line 173, which returns [].
    A bracketed part that parses always parses to an array; the
    fall-through of line 130 is kept as the code has it. *)
Definition parse_stages (result : jstr) : list jstr :=
  let stage3_5 :=
    if includes [44%N] result && negb (length (comma_candidates result) =? 0)
    then comma_candidates result
    else match quoted_phrases result with
         | _ :: _ as qs => phrases_of qs
         | [] => match possibleSkills result with
                 | [] => []
                 | ps => take 10 ps
                 end
         end in
  match Json.parse result with
  | Some (JArr vs) => string_keywords vs
  | _ =>
    match bracket_match result with
    | Some arrayText =>
      match Json.parse arrayText with
      | Some (JArr vs) => string_keywords vs
      | Some _ => stage3_5
      | None => []
      end
    | None => stage3_5
    end
  end.

(** [extractKeywordsWithPplx] of [part_003]: [ax] is how its one
    [axios.post] ends; every failure is caught and gives []. *)
Definition extractKeywordsWithPplx (apiKey : option jstr) (ax : axios_outcome)
    (jobDescription : jstr) : list jstr * nat :=
  if blank jobDescription then ([], 0)
  else if length (Extract.cleanJobDescription jobDescription) <? 20 then ([], 0)
  else match apiKey with
       | None | Some [] => ([], 0)
       | Some _ =>
         match ax with
         | AxOk result => (if blank result then [] else parse_stages result, 1)
         | _ => ([], 1)
         end
       end.

End LegacyExtract.

(** ** Simultaneous calls of [extractKeywordsWithPplx] on the event loop

    One call per job description of a list is started in one synchronous
    run at time 0 (as [Promise.all(jobs.map(extract))]). Each call runs
    until its next [await]: a 500 ms wait of the polling loop or the
    [await callPplxApi(...)], which is mocked to settle [latency] ms later
    with [outcome]. Time advances to the next due wake-up; the calls due
    at that time run in the order their timers were set. *)
Module EventLoop.
Import Extract.

Inductive thread :=
| TSleep (jobDescription : jstr) (attempts : nat) (wake : nat)  (* in the polling loop *)
| TAwait (jobDescription : jstr) (settle : nat)                 (* awaiting callPplxApi *)
| TDone (r : list jstr).                                        (* resolved with r *)


Section Loop.
Variables (number_to_string : jstr -> jstr) (latency : nat) (outcome : js_result jstr).

(** A synchronous run that ended in [FDone] or in a Transport call. *)
Definition enter (t : nat) (jobDescription : jstr) (o : fresh_outcome) (calls : nat)
    : gstate * thread * nat :=
  match o with
  | FDone G r => (G, TDone r, calls)
  | FCall G => (G, TAwait jobDescription (t + latency), S calls)
  end.


(** Resuming a call whose wake-up is due at [t]. *)
Definition resume (t : nat) (G : gstate) (th : thread) (calls : nat) : gstate * thread * nat :=
  match th with
  | TSleep jd a w =>
    if negb (w =? t) then (G, th, calls)
    else if poll_again G jd (S a) then (G, TSleep jd (S a) (t + 500), calls)
    else enter t jd (extract_after_poll G jd (Z.of_nat t)) calls
  | TAwait jd w =>
    if negb (w =? t) then (G, th, calls)
    else let '(G', r) := extract_after_transport number_to_string G jd (Z.of_nat t) outcome in
         (G', TDone r, calls)
  | TDone _ => (G, th, calls)
  end.








End Loop.

End EventLoop.

(** ** Predicates used in the statements *)
Module Inv.
Import Extract.

Definition nonempty_strings (ks : list jstr) : Prop := Forall (fun k => 0 < length k) ks.

(** Every list stored in [keywordCache] is made of non-empty strings. *)
Definition cache_ok (G : gstate) : Prop :=
  map_Forall (fun _ e => nonempty_strings (ce_keywords e)) (keywordCache G).

(** Every stage of the parser cascade fails on [result]: the whole text is
    not a JSON array, no bracketed part parses as one, there is no comma
    with candidates, and no quoted phrase. *)
Definition is_jarr (o : option jsval) : bool :=
  match o with Some (JArr _) => true | _ => false end.

Definition stages_fail (result : jstr) : bool :=
  negb (is_jarr (Json.parse (trim (Keywords.strip_fences result)))) &&
  negb (match Keywords.bracket_match result with Some a => is_jarr (Json.parse a) | None => false end) &&
  negb (includes [44%N] result && negb (length (Keywords.comma_candidates result) =? 0)) &&
  match Keywords.quoted_phrases result with [] => true | _ => false end.

(** What [callPplxApi] settles with when an attempt ends with [o] and is
    not retried. *)
Definition outcome_result (o : axios_outcome) : js_result jstr :=
  match o with
  | AxOk c => Ret c
  | o => Throw (AxiosFailure o)
  end.

(** The requests and waits of attempts [i], ..., [i + k] when each of the
    first [k] of them times out. *)
Fixpoint timeout_trace (timeout : Z) (i k : nat) : list Transport.event :=
  match k with
  | O => [Transport.Post i timeout]
  | S k' => Transport.Post i timeout :: Transport.Wait 2000 :: timeout_trace timeout (S i) k'
  end.

(** No [<] is followed, anywhere later, by a [>]: nothing left for
    [/<[^>]*>/] to match. *)
Fixpoint tag_free (s : jstr) : bool :=
  match s with
  | [] => true
  | c :: r => (if (c =? 60)%N then negb (existsb (fun d => (62 =? d)%N) r) else true) && tag_free r
  end.

(** A unit of [\w] that is not an upper-case ASCII letter. *)
Definition lower_word_unit (c : N) : bool := is_word c && negb ((65 <=? c) && (c <=? 90))%N.

(** The units held back by [nl_pass] while it reads a run of spaces. *)
Definition nl_buf (st : Formatter.nl_state) : jstr :=
  match st with Formatter.NRun buf => buf | _ => [] end.

End Inv.

(** * Proofs *)

(** ** Strings *)

Lemma starts_with_app (p s : jstr) : starts_with p (p ++ s) = true.
Proof. induction p as [|a p IH]; simpl; [done|]. by rewrite N.eqb_refl, IH. Qed.

Lemma ends_with_app (p s : jstr) : ends_with p (s ++ p) = true.
Proof. unfold ends_with. rewrite rev_app_distr. apply starts_with_app. Qed.

Lemma starts_with_spec (p s : jstr) : starts_with p s = true -> exists r, s = p ++ r.
Proof.
  revert s; induction p as [|a p IH]; intros s H; simpl in *; [by exists s|].
  destruct s as [|b s]; [done|].
  apply andb_prop in H as [Hab Hp]. apply N.eqb_eq in Hab as ->.
  destruct (IH s Hp) as [r ->]. by exists r.
Qed.

Lemma trim_start_all_ws (s : jstr) :
  trim_start s = [] -> Forall (fun c => is_ws c = true) s.
Proof.
  induction s as [|c s IH]; simpl; intros H; [constructor|].
  destruct (is_ws c) eqn:E; [constructor; auto | done].
Qed.

Lemma trim_start_prefix (s : jstr) :
  exists w, s = w ++ trim_start s /\ Forall (fun c => is_ws c = true) w.
Proof.
  induction s as [|c s IH]; simpl; [by exists []|].
  destruct (is_ws c) eqn:E.
  - destruct IH as [w [Hw Hf]]. exists (c :: w). split; [simpl; congruence | by constructor].
  - by exists [].
Qed.

Lemma blank_all_ws (s : jstr) : blank s = true -> Forall (fun c => is_ws c = true) s.
Proof.
  unfold blank, trim, trim_end. destruct (rev (trim_start (rev (trim_start s)))) eqn:E; [|done].
  intros _. destruct (trim_start_prefix s) as [w [Hs Hw]].
  assert (Hr : trim_start (rev (trim_start s)) = []).
  { destruct (trim_start (rev (trim_start s))) eqn:E2; [done|].
    simpl in E. destruct (rev l); simpl in E; discriminate. }
  apply trim_start_all_ws in Hr. apply Forall_rev in Hr. rewrite rev_involutive in Hr.
  rewrite Hs. apply Forall_app; auto.
Qed.

Lemma underscore_not_ws : is_ws 95%N = false.
Proof. reflexivity. Qed.

Lemma ends_with_marker_not_blank (s : jstr) :
  ends_with Formatter.MARKER s = true -> blank s = false.
Proof.
  intros H. destruct (blank s) eqn:B; [|done].
  apply blank_all_ws in B. unfold ends_with in H.
  apply starts_with_spec in H as [r Hr].
  assert (Hin : In 95%N (rev s)) by (rewrite Hr; simpl; auto).
  apply in_rev in Hin. rewrite List.Forall_forall in B. apply B in Hin. discriminate.
Qed.

(** ** Enrichment: [validateAndEnrichKeywords] *)
Module EnrichProofs.
Import Keywords.

Lemma importantTerms_compile : Forall (fun t => is_Some (Rx.compile (term t))) importantTerms.
Proof. vm_compute. repeat constructor; eexists; reflexivity. Qed.

Lemma importantTerms_nonempty : Forall (fun t => 0 < length (sanitized t)) importantTerms.
Proof. vm_compute. repeat constructor; lia. Qed.

Section Lowering.
Variable lower : jstr -> jstr.

Lemma check_terms_ok (keywordSet : gset jstr) (raw jd : jstr) (acc : list jstr)
    (ts : list important_term) :
  Forall (fun t => is_Some (Rx.compile (term t))) ts ->
  Forall (fun t => 0 < length (sanitized t)) ts ->
  Inv.nonempty_strings acc ->
  exists m, check_terms lower keywordSet raw jd acc ts = Ret m /\ Inv.nonempty_strings m.
Proof.
  revert acc. induction ts as [|t ts IH]; intros acc Hc Hn Ha; simpl; [eauto|].
  inversion Hc as [|? ? [re Hre] Hc']; subst. inversion Hn as [|? ? Ht Hn']; subst.
  unfold check_term. case_bool_decide; [by apply IH|].
  rewrite Hre.
  destruct (includes (sanitized t) jd || Rx.test re jd); [|destruct (Rx.test re raw)];
    apply IH; auto; unfold Inv.nonempty_strings; apply Forall_app; auto.
Qed.

Lemma direct_fallbacks_ok (keywordSet : gset jstr) (jd : jstr) (m : list jstr) :
  Inv.nonempty_strings m -> Inv.nonempty_strings (direct_fallbacks lower keywordSet jd m).
Proof.
  intros H. unfold direct_fallbacks, Inv.nonempty_strings in *.
  repeat match goal with
         | |- context [if ?b then _ else _] => destruct b
         end;
  repeat (apply Forall_app; split); auto; repeat constructor; simpl; lia.
Qed.

Lemma missingTerms_ok (n2s : jstr -> jstr) (ks : list jsval) (raw jd : jstr) :
  exists m, missingTerms lower n2s ks raw jd = Ret m /\ Inv.nonempty_strings m.
Proof.
  unfold missingTerms.
  destruct (check_terms_ok (keywordSet_of lower (validKeywords n2s ks)) raw jd [] importantTerms
              importantTerms_compile importantTerms_nonempty (List.Forall_nil _)) as [m [-> Hm]].
  eexists; split; [reflexivity|]. by apply direct_fallbacks_ok.
Qed.

Lemma validKeywords_ok (n2s : jstr -> jstr) (ks : list jsval) :
  Inv.nonempty_strings (validKeywords n2s ks).
Proof.
  unfold validKeywords, Inv.nonempty_strings. apply List.Forall_forall. intros k Hk.
  apply filter_In in Hk as [_ Hk]. destruct (length k) eqn:E; simpl in Hk; [done|lia].
Qed.

Lemma dedup_seen_sub (P : jstr -> Prop) (seen : gset jstr) (l : list jstr) :
  Forall P l -> Forall P (dedup_seen lower seen l).
Proof.
  revert seen. induction l as [|k l IH]; intros seen H; simpl; [constructor|].
  inversion H; subst. case_bool_decide; auto.
Qed.

Lemma dedup_seen_nodup (seen : gset jstr) (l : list jstr) :
  NoDup (map lower (dedup_seen lower seen l)) /\
  Forall (fun y => lower y ∉ seen) (dedup_seen lower seen l).
Proof.
  revert seen. induction l as [|k l IH]; intros seen; simpl; [split; constructor|].
  case_bool_decide as Hk; [apply IH|].
  destruct (IH ({[lower k]} ∪ seen)) as [Hnd Hf]. simpl. split.
  - constructor; [|done]. intros Hin. apply list_elem_of_In, in_map_iff in Hin as [y [Hy Hyin]].
    rewrite List.Forall_forall in Hf. apply (Hf y Hyin). rewrite Hy. set_solver.
  - constructor; [done|]. eapply Forall_impl; [exact Hf|]. intros y Hy. set_solver.
Qed.

(** The set-based filter of the source computes [keep_first_seen]. *)
Lemma dedup_seen_first_seen (seen : gset jstr) (pre l : list jstr) :
  (forall x, x ∈ seen <-> In x (map lower pre)) ->
  dedup_seen lower seen l = keep_first_seen_go lower pre l.
Proof.
  revert seen pre. induction l as [|k l IH]; intros seen pre Hs; simpl; [done|].
  assert (Hiff : bool_decide (lower k ∈ seen)
                 = existsb (fun p => bool_decide (lower p = lower k)) pre).
  { apply eq_bool_prop_intro. rewrite Is_true_true, Is_true_true, bool_decide_eq_true.
    rewrite Hs, existsb_exists, in_map_iff. split.
    - intros [p [Hp Hin]]. exists p. split; [done|]. by apply bool_decide_eq_true.
    - intros [p [Hin Hp]]. exists p. split; [|done]. by apply bool_decide_eq_true in Hp. }
  rewrite <- Hiff. case_bool_decide as Hk.
  - apply IH. intros x. rewrite Hs, map_app, in_app_iff. simpl.
    split; [tauto|]. intros [H|[<-|[]]]; [done|]. by apply Hs.
  - f_equal. apply IH. intros x. rewrite elem_of_union, elem_of_singleton, Hs, map_app, in_app_iff.
    simpl. split; [intros [->|H]; auto | intros [H|[<-|[]]]; auto].
Qed.

End Lowering.

End EnrichProofs.

(** ** The parser cascade and the orchestrator *)
Module ExtractProofs.
Import Keywords Extract EnrichProofs.

Lemma validate_ok (lower n2s : jstr -> jstr) (ks : list jsval) (raw jd : jstr) :
  exists out, validateAndEnrichKeywords lower n2s ks raw jd = Ret out /\ Inv.nonempty_strings out.
Proof.
  unfold validateAndEnrichKeywords. destruct (missingTerms_ok lower n2s ks raw jd) as [m [-> Hm]].
  eexists; split; [reflexivity|]. apply dedup_seen_sub.
  unfold Inv.nonempty_strings. apply Forall_app; split; [apply validKeywords_ok | exact Hm].
Qed.

Lemma manual_matches_throw (jd : jstr) (pre post : list jstr) (t : jstr) (acc : list jstr) :
  Forall (fun u => is_Some (Rx.compile (escape_slashes u))) pre ->
  Rx.compile (escape_slashes t) = None ->
  manual_matches jd acc (pre ++ t :: post) = Throw SyntaxError.
Proof.
  revert acc. induction pre as [|u pre IH]; intros acc Hpre Ht; simpl.
  - by rewrite Ht.
  - inversion Hpre as [|? ? [re Hre] Hpre']; subst. rewrite Hre. by apply IH.
Qed.

(** The last-resort stage always throws: the pattern built from [C++] is
    not a valid regular expression. *)
Lemma manual_stage_throws (jd : jstr) :
  manual_matches jd [] technicalTerms = Throw SyntaxError.
Proof.
  change technicalTerms with ([js "Python"] ++ js "C++" :: skipn 2 technicalTerms).
  apply manual_matches_throw; [|reflexivity].
  repeat constructor. eexists; reflexivity.
Qed.

Ltac cascade_cases :=
  repeat match goal with
  | H : validateAndEnrichKeywords ?lo ?n ?k ?r ?j = Throw _ |- _ =>
      destruct (validate_ok lo n k r j) as [? [Hv _]]; rewrite Hv in H; discriminate
  | H : manual_matches ?j [] technicalTerms = Ret _ |- _ =>
      rewrite manual_stage_throws in H; discriminate
  end.

Lemma cascade_nonempty (n2s : jstr -> jstr) (jd result : jstr) (ks : list jstr) :
  parse_cascade n2s jd result = Ret (Some ks) -> Inv.nonempty_strings ks.
Proof.
  unfold parse_cascade. cbv zeta. intros Hc.
  repeat case_match; simplify_eq; cascade_cases;
    try match goal with
        | H : validateAndEnrichKeywords ?lo ?n ?k ?r ?j = Ret ?o |- Inv.nonempty_strings ?o =>
            destruct (validate_ok lo n k r j) as [? [Hv Hn]]; rewrite Hv in H; by simplify_eq
        end.
  all: rewrite manual_stage_throws in *; discriminate.
Qed.

Lemma cascade_all_fail (n2s : jstr -> jstr) (jd result : jstr) :
  Inv.stages_fail result = true -> parse_cascade n2s jd result = Throw SyntaxError.
Proof.
  unfold Inv.stages_fail, parse_cascade. cbv zeta.
  intros H. apply andb_prop in H as [H H4]. apply andb_prop in H as [H H3].
  apply andb_prop in H as [H1 H2]. apply negb_true_iff in H1, H2, H3.
  destruct (quoted_phrases result); [|discriminate]. rewrite H3, manual_stage_throws.
  destruct (Json.parse (trim (strip_fences result))) as [[]|]; try discriminate;
  destruct (bracket_match result) as [a|]; try reflexivity;
  destruct (Json.parse a) as [[]|]; done.
Qed.

Lemma delete_pending_cache (k : jstr) (G : gstate) :
  keywordCache (delete_pending k G) = keywordCache G.
Proof. reflexivity. Qed.

Lemma store_ok (G : gstate) (jd : jstr) (now : Z) (ks : list jstr) :
  Inv.cache_ok G -> Inv.nonempty_strings ks -> Inv.cache_ok (storeResultInCache G jd now ks).
Proof. intros HG Hks. unfold Inv.cache_ok; simpl. by apply map_Forall_insert_2. Qed.

Lemma after_transport_ok (n2s : jstr -> jstr) (G : gstate) (jd : jstr) (now : Z)
    (tr : js_result jstr) :
  Inv.cache_ok G ->
  Inv.cache_ok (fst (extract_after_transport n2s G jd now tr)) /\
  Inv.nonempty_strings (snd (extract_after_transport n2s G jd now tr)).
Proof.
  intros HG. unfold extract_after_transport, extraction_body.
  destruct tr as [result|e]; [|simpl; split; [exact HG|constructor]].
  destruct (blank result); [simpl; split; [exact HG|constructor]|].
  destruct (parse_cascade n2s jd result) as [[ks|]|] eqn:E;
    simpl; try (split; [exact HG|constructor]).
  split; [apply store_ok; [done|] |]; eapply cascade_nonempty; exact E.
Qed.

Lemma after_transport_fail (n2s : jstr -> jstr) (G : gstate) (jd : jstr) (now : Z)
    (result : jstr) :
  Inv.stages_fail result = true -> snd (extract_after_transport n2s G jd now (Ret result)) = [].
Proof.
  intros H. unfold extract_after_transport, extraction_body.
  destruct (blank result); [done|]. by rewrite cascade_all_fail.
Qed.

Lemma add_pending_ok (k : jstr) (G : gstate) : Inv.cache_ok G -> Inv.cache_ok (add_pending k G).
Proof. done. Qed.

Lemma fresh_ok (G : gstate) (jd : jstr) (now : Z) :
  Inv.cache_ok G ->
  match extract_fresh G jd now with
  | FDone G' r => Inv.cache_ok G' /\ Inv.nonempty_strings r
  | FCall G1 => Inv.cache_ok G1
  end.
Proof.
  intros HG. unfold extract_fresh. cbv zeta.
  destruct (keywordCache G !! createCacheKey jd) as [e|] eqn:E.
  - destruct (now - ce_timestamp e <? CACHE_EXPIRY_MS)%Z.
    + split; [done|]. exact (HG _ _ E).
    + destruct (length (cleanJobDescription jd) <? 20); [split; [done|constructor] | done].
  - destruct (length (cleanJobDescription jd) <? 20); [split; [done|constructor] | done].
Qed.

Lemma finish_ok (n2s : jstr -> jstr) (jd : jstr) (now : Z) (tr : js_result jstr)
    (o : fresh_outcome) :
  match o with
  | FDone G' r => Inv.cache_ok G' /\ Inv.nonempty_strings r
  | FCall G1 => Inv.cache_ok G1
  end ->
  Inv.cache_ok (fst (finish n2s jd now tr o)) /\ Inv.nonempty_strings (snd (finish n2s jd now tr o)).
Proof. destruct o as [G' r|G1]; simpl; [done|]. apply after_transport_ok. Qed.

Lemma poll_loop_ok (obs : nat -> gstate) (jd : jstr) (attempts fuel : nat) (G : gstate) :
  Inv.cache_ok G -> (forall k, Inv.cache_ok (obs k)) ->
  Inv.cache_ok (poll_loop obs jd attempts fuel G).
Proof.
  revert attempts G. induction fuel as [|f IH]; intros attempts G HG Hobs; simpl; [done|].
  destruct (poll_again G jd attempts); auto.
Qed.

Lemma after_poll_ok (G : gstate) (jd : jstr) (now : Z) :
  Inv.cache_ok G ->
  match extract_after_poll G jd now with
  | FDone G' r => Inv.cache_ok G' /\ Inv.nonempty_strings r
  | FCall G1 => Inv.cache_ok G1
  end.
Proof.
  intros HG. unfold extract_after_poll.
  destruct (keywordCache G !! createCacheKey jd) as [e|] eqn:E; [|by apply fresh_ok].
  split; [done|]. exact (HG _ _ E).
Qed.

Lemma validation_keywords_ok : Inv.nonempty_strings validation_keywords.
Proof. repeat constructor; simpl; lia. Qed.

Lemma start_ok (G : gstate) (jd : jstr) (now : Z) (o : fresh_outcome) :
  Inv.cache_ok G -> extract_start G jd now = SNow o ->
  match o with
  | FDone G' r => Inv.cache_ok G' /\ Inv.nonempty_strings r
  | FCall G1 => Inv.cache_ok G1
  end.
Proof.
  intros HG. unfold extract_start.
  destruct (blank jd); [intros [= <-]; split; [done|constructor]|].
  destruct (isApiValidationJob jd && apiValidated G);
    [intros [= <-]; split; [done|apply validation_keywords_ok]|].
  case_bool_decide; [done|]. intros [= <-]. by apply fresh_ok.
Qed.

End ExtractProofs.

(** ** The formatter *)
Module FormatterProofs.
Import Formatter.

Lemma format_response_marker (pp : jstr -> jstr) (cc response : jstr) :
  exists p, format_response pp cc response = p ++ MARKER.
Proof. unfold format_response. cbv zeta. destruct (blank _); eauto. Qed.

Lemma glyph_pass_id (gs : list N) (s : jstr) :
  Forall (fun c => existsb (N.eqb c) gs = false) s -> glyph_pass gs false s = s.
Proof.
  induction s as [|c s IH]; intros H; simpl; [done|].
  inversion H as [|? ? Hc Hs]; subst. rewrite Hc. f_equal. by apply IH.
Qed.

Lemma nl_pass_id (s : jstr) :
  Forall (fun c => c <> BULLET) s ->
  nl_pass NNormal s = s /\ forall buf, nl_pass (NRun buf) s = rev buf ++ s.
Proof.
  induction s as [|c s IH]; intros H; simpl.
  - split; [done|]. intros buf. by rewrite app_nil_r.
  - inversion H as [|? ? Hc Hs]; subst. destruct (IH Hs) as [IH1 IH2].
    assert (Hb : (c =? BULLET)%N = false) by (apply N.eqb_neq; exact Hc).
    split.
    + destruct (c =? 10)%N eqn:E; [|by rewrite IH1].
      apply N.eqb_eq in E as ->. by rewrite IH2.
    + intros buf. rewrite Hb. destruct (is_ws c).
      * rewrite IH2. simpl. by rewrite <- app_assoc.
      * by rewrite IH1.
Qed.

(** With no bullet and no other bullet glyph, the final clean-up changes nothing. *)
Lemma final_cleanup_id (s : jstr) :
  Forall (fun c => c <> BULLET /\ ~ In c GLYPHS) s -> final_cleanup s = s.
Proof.
  intros H. unfold final_cleanup.
  rewrite (glyph_pass_id [BULLET]).
  2:{ eapply Forall_impl; [exact H|]. intros c [Hc _]. simpl.
      rewrite orb_false_r. by apply N.eqb_neq. }
  rewrite glyph_pass_id.
  2:{ eapply Forall_impl; [exact H|]. intros c [_ Hc].
      apply not_true_iff_false. intros He. apply existsb_exists in He as [g [Hg Heq]].
      apply N.eqb_eq in Heq as ->. contradiction. }
  apply nl_pass_id. eapply Forall_impl; [exact H|]. by intros c [Hc _].
Qed.

Lemma blank_nil : blank [] = true.
Proof. reflexivity. Qed.

End FormatterProofs.

(** ** Simultaneous calls *)
Module EventLoopProofs.
Import Keywords Extract EventLoop.














Section Flight.
Variables (n2s : jstr -> jstr) (jd0 : jstr) (jds : list jstr) (G0 : gstate).
Hypothesis Hall : Forall (fun jd => createCacheKey jd = createCacheKey jd0 /\ blank jd = false /\
                                     isApiValidationJob jd && apiValidated G0 = false) (jd0 :: jds).
Hypothesis Hpend : createCacheKey jd0 ∉ pendingRequests G0.







Section Settle.
Variables (result : jstr) (ks : list jstr) (L : nat).
Hypothesis Hres : blank result = false.
Hypothesis Hcasc : parse_cascade n2s jd0 result = Ret (Some ks).






End Settle.


End Flight.

End EventLoopProofs.

(** * The claims *)
Module Claims.
Import Keywords Extract EnrichProofs ExtractProofs EventLoop EventLoopProofs.

(** C1: [extractKeywordsWithPplx] has no exceptional outcome (its result
    type has none; every throw inside it is caught). From a state whose
    cache holds only non-empty strings, and meeting only such states
    while polling, it returns a list of non-empty strings and keeps that
    cache invariant. When every stage of the cascade fails on the model's
    response, the code after the transport call returns the empty list. *)
Theorem extract_total_nonempty (n2s : jstr -> jstr) (G : gstate) (jd : jstr) (now : Z)
    (obs : nat -> gstate) (tr : js_result jstr) :
  Inv.cache_ok G -> (forall k, Inv.cache_ok (obs k)) ->
  Inv.nonempty_strings (snd (extractKeywordsWithPplx n2s G jd now obs tr)) /\
  Inv.cache_ok (fst (extractKeywordsWithPplx n2s G jd now obs tr)) /\
  (forall G1 result, Inv.stages_fail result = true ->
     snd (extract_after_transport n2s G1 jd now (Ret result)) = []).
Proof.
  intros HG Hobs.
  assert (Hr : Inv.cache_ok (fst (extractKeywordsWithPplx n2s G jd now obs tr)) /\
               Inv.nonempty_strings (snd (extractKeywordsWithPplx n2s G jd now obs tr))).
  { unfold extractKeywordsWithPplx.
    destruct (extract_start G jd now) as [o|] eqn:E; apply finish_ok.
    - by apply (start_ok G jd now).
    - apply after_poll_ok. by apply poll_loop_ok. }
  destruct Hr as [Hc Hn]. split; [done|]. split; [done|].
  intros G1 result Hf. by apply after_transport_fail.
Qed.

Lemma extract_total_nonempty_witness :
  (Inv.cache_ok init_state /\ (forall k : nat, Inv.cache_ok ((fun _ => init_state) k))) /\
  Inv.nonempty_strings (snd (extractKeywordsWithPplx (fun s => s) init_state
                              (js "Experience with Python and C++ required") 0%Z
                              (fun _ => init_state) (Ret (js "no keywords")))).
Proof.
  assert (H0 : Inv.cache_ok init_state) by apply map_Forall_empty.
  split; [split; [exact H0 | intros _; exact H0]|].
  apply (extract_total_nonempty (fun s => s) init_state
           (js "Experience with Python and C++ required") 0%Z (fun _ => init_state)
           (Ret (js "no keywords")) H0 (fun _ => H0)).
Defined.

(** C2: for every case mapping [lower] (the code calls
    [String.prototype.toLowerCase], whatever it does on a unit),
    [validateAndEnrichKeywords] never throws; its output has no two
    elements with the same image under [lower], contains only non-empty
    strings, and is the input list followed by the missing terms with
    every element dropped whose image occurred earlier, so the first-seen
    order is kept. *)
Theorem enrich_dedup_first_seen (lower n2s : jstr -> jstr) (ks : list jsval) (raw jd : jstr) :
  exists out, validateAndEnrichKeywords lower n2s ks raw jd = Ret out /\
    NoDup (map lower out) /\ Inv.nonempty_strings out /\
    exists m, missingTerms lower n2s ks raw jd = Ret m /\
              out = keep_first_seen lower (validKeywords n2s ks ++ m).
Proof.
  destruct (missingTerms_ok lower n2s ks raw jd) as [m [Hm Hne]].
  exists (dedup_seen lower ∅ (validKeywords n2s ks ++ m)).
  split; [unfold validateAndEnrichKeywords; by rewrite Hm|].
  split; [apply dedup_seen_nodup|].
  split; [apply dedup_seen_sub; apply Forall_app; split; [apply validKeywords_ok|exact Hne]|].
  exists m. split; [done|]. apply dedup_seen_first_seen. intros x. simpl. set_solver.
Qed.

(** C5: for the job description [Experience with Python and C++ required]
    and the response [Sure! Here's the list: ["Python"]], the bracketed
    array parses to the one string [Python], and the cascade with its
    enrichment yields [Python] and [C++]; so does the whole call from the
    initial state. *)
Theorem cascade_python_cpp (n2s : jstr -> jstr) (obs : nat -> gstate) (now : Z) :
  let jd := js "Experience with Python and C++ required" in
  let raw := js "Sure! Here's the list: [" ++ [34%N] ++ js "Python" ++ [34%N] ++ js "]" in
  bracket_match raw = Some (js "[" ++ [34%N] ++ js "Python" ++ [34%N] ++ js "]") /\
  Json.parse (js "[" ++ [34%N] ++ js "Python" ++ [34%N] ++ js "]")
    = Some (JArr [JStr (js "Python")]) /\
  parse_cascade n2s jd raw = Ret (Some [js "Python"; js "C++"]) /\
  snd (extractKeywordsWithPplx n2s init_state jd now obs (Ret raw)) = [js "Python"; js "C++"].
Proof. vm_compute. repeat split. Qed.

(** C3 (the default taken for zero): the transport reads its retry count
    as [options.retries || 2], so [retries: 0] gives two retries. With a
    key, no timeout option, [retries: 0] and every attempt timing out,
    three requests are sent, two 2-second waits are made, and the last
    timeout is thrown. *)
Theorem retries_zero_three_attempts :
  Transport.callPplxApi (Some (js "key"))
    {| Transport.timeoutMs := None; Transport.retries := Some 0%Z |} (fun _ => AxTimeout)
  = ([Transport.Post 0 60000; Transport.Wait 2000; Transport.Post 1 60000;
      Transport.Wait 2000; Transport.Post 2 60000], Throw (AxiosFailure AxTimeout)).
Proof. vm_compute. reflexivity. Qed.

(** C4: for a non-blank resume, whenever [callPplxApi] rejects, the
    formatter returns the marker-stripped content followed by the marker;
    without a key the transport rejects at once, sending nothing. *)
Theorem format_failure_original (pp : jstr -> jstr) (ax : nat -> axios_outcome) (rc : jstr) :
  blank rc = false ->
  (forall apiKey e, snd (Transport.callPplxApi apiKey Formatter.format_options ax) = Throw e ->
     Formatter.fixResumeFormatting pp apiKey ax rc = Formatter.cleanContent rc ++ Formatter.MARKER) /\
  Transport.callPplxApi None Formatter.format_options ax = ([], Throw ApiKeyNotFound) /\
  Formatter.fixResumeFormatting pp None ax rc = Formatter.cleanContent rc ++ Formatter.MARKER.
Proof.
  intros Hb. unfold Formatter.fixResumeFormatting. rewrite Hb. cbv zeta.
  split; [|split; [reflexivity|reflexivity]].
  intros apiKey e He. by rewrite He.
Qed.

Lemma format_failure_original_witness :
  blank (js "Jane Doe") = false /\
  Formatter.fixResumeFormatting (fun s => s) None (fun _ => AxTimeout) (js "Jane Doe")
    = Formatter.cleanContent (js "Jane Doe") ++ Formatter.MARKER.
Proof.
  assert (Hb : blank (js "Jane Doe") = false) by reflexivity.
  split; [exact Hb|].
  exact (proj2 (proj2 (format_failure_original (fun s => s) (fun _ => AxTimeout) _ Hb))).
Defined.

(** C6 (counterexample): 6001 letters [a], an identity post-processing and
    the model answer [x]: the result is [xa] followed by the 15-unit
    marker, of length 17, not 1 + (6001 - 6000). *)
Lemma format_length_counterexample :
  let cc := repeat 97%N 6001 in
  let r := Formatter.fixResumeFormatting (fun s => s) (Some (js "k"))
             (fun _ => AxOk (js "x")) cc in
  r = js "xa" ++ Formatter.MARKER /\
  length r <> length (Formatter.cleaned_prefix (fun s => s) (js "x"))
              + (length (Formatter.cleanContent cc) - 6000).
Proof. vm_compute. split; [reflexivity | discriminate]. Qed.

(** C6 (as the code does it): past the cap, with a non-blank cleaned model
    prefix, the result is the final bullet clean-up of the prefix followed
    by the untouched remainder, then the marker; when neither contains a
    bullet glyph, its length is the prefix length plus (length - 6000)
    plus the 15 units of the marker. *)
Theorem format_merge_length (pp : jstr -> jstr) (apiKey : option jstr)
    (ax : nat -> axios_outcome) (rc response : jstr) :
  blank rc = false ->
  snd (Transport.callPplxApi apiKey Formatter.format_options ax) = Ret response ->
  6000 < length (Formatter.cleanContent rc) ->
  blank (Formatter.cleaned_prefix pp response) = false ->
  Formatter.fixResumeFormatting pp apiKey ax rc
    = Formatter.final_cleanup (Formatter.cleaned_prefix pp response
                               ++ drop 6000 (Formatter.cleanContent rc)) ++ Formatter.MARKER /\
  (Forall (fun c => c <> Formatter.BULLET /\ ~ In c Formatter.GLYPHS)
     (Formatter.cleaned_prefix pp response ++ drop 6000 (Formatter.cleanContent rc)) ->
   length (Formatter.fixResumeFormatting pp apiKey ax rc)
     = length (Formatter.cleaned_prefix pp response)
       + (length (Formatter.cleanContent rc) - 6000) + 15).
Proof.
  intros Hb Hr Hlen Hp.
  assert (Heq : Formatter.fixResumeFormatting pp apiKey ax rc
    = Formatter.final_cleanup (Formatter.cleaned_prefix pp response
                               ++ drop 6000 (Formatter.cleanContent rc)) ++ Formatter.MARKER).
  { unfold Formatter.fixResumeFormatting. rewrite Hb, Hr. unfold Formatter.format_response.
    cbv zeta. rewrite Hp.
    destruct (Formatter.cleaned_prefix pp response) eqn:Ep; [discriminate|].
    unfold Formatter.MAX_CONTENT_LENGTH. apply Nat.ltb_lt in Hlen. by rewrite Hlen. }
  split; [exact Heq|]. intros Hf. rewrite Heq, FormatterProofs.final_cleanup_id by exact Hf.
  rewrite !length_app, length_drop. reflexivity.
Qed.

Lemma format_merge_length_witness :
  let rc := repeat 97%N 6001 in
  (blank rc = false /\
   snd (Transport.callPplxApi (Some (js "k")) Formatter.format_options (fun _ => AxOk (js "x")))
     = Ret (js "x") /\
   6000 < length (Formatter.cleanContent rc) /\
   blank (Formatter.cleaned_prefix (fun s => s) (js "x")) = false) /\
  Formatter.fixResumeFormatting (fun s => s) (Some (js "k")) (fun _ => AxOk (js "x")) rc
    = Formatter.final_cleanup (Formatter.cleaned_prefix (fun s => s) (js "x")
                               ++ drop 6000 (Formatter.cleanContent rc)) ++ Formatter.MARKER.
Proof.
  cbv zeta.
  assert (H1 : blank (repeat 97%N 6001) = false) by (vm_compute; reflexivity).
  assert (H2 : snd (Transport.callPplxApi (Some (js "k")) Formatter.format_options
                      (fun _ => AxOk (js "x"))) = Ret (js "x")) by reflexivity.
  assert (H3 : 6000 < length (Formatter.cleanContent (repeat 97%N 6001)))
    by (apply Nat.ltb_lt; vm_compute; reflexivity).
  assert (H4 : blank (Formatter.cleaned_prefix (fun s => s) (js "x")) = false)
    by (vm_compute; reflexivity).
  split; [tauto|].
  exact (proj1 (format_merge_length (fun s => s) (Some (js "k")) (fun _ => AxOk (js "x"))
                  (repeat 97%N 6001) (js "x") H1 H2 H3 H4)).
Defined.

(** C7: the earlier formatter returns content that ends with the marker
    unchanged and sends no request; content without the marker at its end
    (for instance after a caller strips it), non-blank and with a key,
    is sent once. *)
Theorem legacy_skip_marked (apiKey : option jstr) (ax : axios_outcome) (rc : jstr) :
  ends_with Formatter.MARKER rc = true ->
  LegacyFormatter.fixResumeFormatting apiKey ax rc = (rc, 0) /\
  (forall rc' k, ends_with Formatter.MARKER rc' = false -> blank rc' = false -> k <> [] ->
     snd (LegacyFormatter.fixResumeFormatting (Some k) ax rc') = 1).
Proof.
  intros He. split.
  - unfold LegacyFormatter.fixResumeFormatting. by rewrite ends_with_marker_not_blank, He.
  - intros rc' k He' Hb' Hk. unfold LegacyFormatter.fixResumeFormatting.
    rewrite Hb', He'. destruct k; [done|]. by destruct ax.
Qed.

Lemma legacy_skip_marked_witness :
  ends_with Formatter.MARKER (js "Jane Doe" ++ Formatter.MARKER) = true /\
  LegacyFormatter.fixResumeFormatting (Some (js "k")) (AxOk (js "x")) (js "Jane Doe" ++ Formatter.MARKER)
    = (js "Jane Doe" ++ Formatter.MARKER, 0).
Proof.
  assert (He : ends_with Formatter.MARKER (js "Jane Doe" ++ Formatter.MARKER) = true)
    by reflexivity.
  split; [exact He|].
  exact (proj1 (legacy_skip_marked (Some (js "k")) (AxOk (js "x")) _ He)).
Defined.

(** C10: a blank (empty or white-space only) resume gives the empty
    string, which does not end with the marker; any other input gives a
    string ending with the marker, whatever the transport and the model
    answer. *)
Theorem format_marker_suffix (pp : jstr -> jstr) (apiKey : option jstr)
    (ax : nat -> axios_outcome) (rc : jstr) :
  if blank rc
  then Formatter.fixResumeFormatting pp apiKey ax rc = [] /\
       ends_with Formatter.MARKER (Formatter.fixResumeFormatting pp apiKey ax rc) = false
  else ends_with Formatter.MARKER (Formatter.fixResumeFormatting pp apiKey ax rc) = true.
Proof.
  unfold Formatter.fixResumeFormatting. destruct (blank rc); [by split|].
  cbv zeta. destruct (snd _) as [response|e].
  - destruct (FormatterProofs.format_response_marker pp (Formatter.cleanContent rc) response)
      as [p ->].
    apply ends_with_app.
  - apply ends_with_app.
Qed.

(** C8 (counterexample): when every Transport attempt times out, the
    orchestrator resolves to the empty list, not to the local heuristic's
    output, which is non-empty for this job description. *)
Lemma timeout_orchestrator_empty_counterexample :
  let jd := js "Experience with Python and C++ required" in
  snd (Transport.callPplxApi (Some (js "k")) extract_options (fun _ => AxTimeout))
    = Throw (AxiosFailure AxTimeout) /\
  snd (extractKeywordsWithPplx (fun s => s) init_state jd 0%Z (fun _ => init_state)
         (snd (Transport.callPplxApi (Some (js "k")) extract_options (fun _ => AxTimeout)))) = [] /\
  Visualizer.extractKeywordsLocally jd = [js "experience"; js "python"; js "required"].
Proof. vm_compute. repeat split. Qed.

(** C8 (as the code does it): when every attempt times out, the Transport
    rejects with the timeout, the orchestrator catches it and resolves to
    the empty list; the UI component [getKeywords], seeing an empty list
    for a job description it processes, sets the local heuristic's output
    without the removed keywords. *)
Theorem timeout_local_fallback (n2s : jstr -> jstr) (G : gstate) (jd : jstr) (now : Z)
    (key : jstr) :
  key <> [] ->
  snd (Transport.callPplxApi (Some key) extract_options (fun _ => AxTimeout))
    = Throw (AxiosFailure AxTimeout) /\
  snd (extract_after_transport n2s G jd now
         (snd (Transport.callPplxApi (Some key) extract_options (fun _ => AxTimeout)))) = [] /\
  (forall (api : jstr -> list jstr) (V : Visualizer.vis_state) (jobDesc : jstr),
     api jobDesc = [] -> 50 <= length (trim jobDesc) ->
     Visualizer.processingJob V <> jobDesc ->
     Visualizer.createFingerprint jobDesc
       <> Visualizer.createFingerprint (Visualizer.lastProcessedJob V) ->
     Visualizer.getKeywords api V jobDesc
     = Some (List.filter (fun k => negb (bool_decide (k ∈ Visualizer.removedKeywords V)))
               (Visualizer.extractKeywordsLocally jobDesc))).
Proof.
  intros Hk.
  assert (Ht : snd (Transport.callPplxApi (Some key) extract_options (fun _ => AxTimeout))
               = Throw (AxiosFailure AxTimeout)) by (destruct key; [done|reflexivity]).
  split; [exact Ht|]. split; [rewrite Ht; reflexivity|].
  intros api V jobDesc Hapi Hlen Hp Hf. unfold Visualizer.getKeywords. cbv zeta.
  replace (length (trim jobDesc) <? 50) with false by (symmetry; apply Nat.ltb_ge; lia).
  rewrite bool_decide_false by exact Hp. rewrite bool_decide_false by exact Hf. simpl orb.
  cbv iota. destruct (_ && _); [rewrite Hapi|]; reflexivity.
Qed.

Lemma timeout_local_fallback_witness :
  let jd := js "We are hiring an engineer with Python, Docker and Kubernetes experience." in
  let V := {| Visualizer.useApiKeywords := true; Visualizer.isValidated := true;
              Visualizer.removedKeywords := ∅; Visualizer.lastProcessedJob := [];
              Visualizer.processingJob := [] |} in
  (js "k" <> [] /\ (fun _ : jstr => @nil jstr) jd = [] /\ 50 <= length (trim jd) /\
   Visualizer.processingJob V <> jd /\
   Visualizer.createFingerprint jd <> Visualizer.createFingerprint (Visualizer.lastProcessedJob V)) /\
  Visualizer.getKeywords (fun _ => []) V jd
  = Some (List.filter (fun k => negb (bool_decide (k ∈ Visualizer.removedKeywords V)))
            (Visualizer.extractKeywordsLocally jd)).
Proof.
  intros jd V.
  assert (Hk : js "k" <> []) by discriminate.
  assert (Ha : (fun _ : jstr => @nil jstr) jd = []) by reflexivity.
  assert (Hl : 50 <= length (trim jd)) by (apply Nat.leb_le; vm_compute; reflexivity).
  assert (Hp : Visualizer.processingJob V <> jd) by discriminate.
  assert (Hf : Visualizer.createFingerprint jd
               <> Visualizer.createFingerprint (Visualizer.lastProcessedJob V))
    by (vm_compute; discriminate).
  split; [tauto|].
  exact (proj2 (proj2 (timeout_local_fallback (fun s => s) init_state jd 0%Z (js "k") Hk))
           (fun _ => []) V jd Ha Hl Hp Hf).
Defined.




End Claims.

Module TransportProofs.
Import Transport.

Lemma attempt_loop_trace (r t : Z) (ax : nat -> axios_outcome) (k : nat) :
  (Z.of_nat k <= r)%Z ->
  (forall j, j < k -> ax j = AxTimeout) ->
  (ax k <> AxTimeout \/ Z.of_nat k = r) ->
  forall d i fuel le, i + d = k -> d < fuel ->
  attempt_loop r t ax i fuel le = (Inv.timeout_trace t i d, Inv.outcome_result (ax k)).
Proof.
  intros Hk Hto Hlast d. induction d as [|d IH]; intros i fuel le Hi Hf;
    (destruct fuel as [|f]; [lia|]); simpl.
  - rewrite Nat.add_0_r in Hi. subst i.
    replace (Z.of_nat k <=? r)%Z with true by (symmetry; apply Z.leb_le; lia).
    destruct (ax k) eqn:E; [reflexivity| |reflexivity].
    destruct Hlast as [Hn|Heq]; [congruence|].
    replace (Z.of_nat k <? r)%Z with false by (symmetry; apply Z.ltb_ge; lia). reflexivity.
  - replace (Z.of_nat i <=? r)%Z with true by (symmetry; apply Z.leb_le; lia).
    rewrite (Hto i) by lia.
    replace (Z.of_nat i <? r)%Z with true by (symmetry; apply Z.ltb_lt; lia).
    rewrite (IH (S i) f (AxiosFailure AxTimeout)) by lia. reflexivity.
Qed.

Lemma first_non_timeout (ax : nat -> axios_outcome) (n : nat) :
  exists k, k <= n /\ (forall j, j < k -> ax j = AxTimeout) /\ (ax k <> AxTimeout \/ k = n).
Proof.
  induction n as [|n [k [Hk [Hto Hl]]]].
  - exists 0. split; [lia|]. split; [intros; lia|]. by right.
  - destruct Hl as [Hn|Hkn].
    + exists k. split; [lia|]. split; [done|]. by left.
    + subst k. destruct (ax n) eqn:E.
      * exists n. split; [lia|]. split; [done|]. left. by rewrite E.
      * exists (S n). split; [lia|]. split; [|by right].
        intros j Hj. destruct (decide (j = n)) as [->|]; [done|]. apply Hto. lia.
      * exists n. split; [lia|]. split; [done|]. left. by rewrite E.
Qed.

(** X1: With a non-empty API key and a retry count options.retries || 2 that
    is not negative, callPplxApi posts again only after a timeout, and stops
    at the first attempt k that does not time out or at attempt number
    retries. It makes k+1 posts with the configured timeout, separated by k
    waits of 2000 ms, and resolves with the content of attempt k or rejects
    with its error. *)
Theorem callPplxApi_attempts (key : jstr) (opts : options) (ax : nat -> axios_outcome) :
  key <> [] -> (0 <= or_default (retries opts) 2)%Z ->
  exists k, (Z.of_nat k <= or_default (retries opts) 2)%Z /\
    (forall j, j < k -> ax j = AxTimeout) /\
    (ax k <> AxTimeout \/ Z.of_nat k = or_default (retries opts) 2) /\
    callPplxApi (Some key) opts ax
    = (Inv.timeout_trace (or_default (timeoutMs opts) 60000) 0 k, Inv.outcome_result (ax k)).
Proof.
  intros Hkey Hr.
  destruct (first_non_timeout ax (Z.to_nat (or_default (retries opts) 2))) as [k [Hk [Hto Hl]]].
  assert (Hl' : ax k <> AxTimeout \/ Z.of_nat k = or_default (retries opts) 2)
    by (destruct Hl; [by left | right; lia]).
  exists k. split; [lia|]. split; [done|]. split; [done|].
  unfold callPplxApi. destruct key as [|c key]; [done|]. cbv zeta.
  apply (attempt_loop_trace _ _ ax k); [lia|done|done|lia|lia].
Qed.

(** X2: With a non-empty API key and a negative options.retries, callPplxApi
    sends no request and rejects with null, the initial value of lastError. *)
Theorem callPplxApi_negative_retries (key : jstr) (opts : options) (ax : nat -> axios_outcome) :
  key <> [] -> (or_default (retries opts) 2 < 0)%Z ->
  callPplxApi (Some key) opts ax = ([], Throw NullThrown).
Proof.
  intros Hkey Hr. unfold callPplxApi. destruct key as [|c key]; [done|]. cbv zeta.
  replace (Z.to_nat (or_default (retries opts) 2)) with 0 by lia. simpl.
  replace (Z.of_nat 0 <=? or_default (retries opts) 2)%Z with false by (symmetry; apply Z.leb_gt; lia).
  reflexivity.
Qed.


(** One timeout, then an answer, with one retry allowed: two requests with
    a 2-second wait between them. *)
Lemma callPplxApi_attempts_witness :
  js "k" <> [] /\
  (0 <= or_default (retries {| timeoutMs := None; retries := Some 1%Z |}) 2)%Z /\
  exists k, (Z.of_nat k <= or_default (retries {| timeoutMs := None; retries := Some 1%Z |}) 2)%Z /\
    (forall j, j < k -> (fun j => if (j =? 0)%nat then AxTimeout else AxOk (js "ok")) j = AxTimeout) /\
    ((fun j => if (j =? 0)%nat then AxTimeout else AxOk (js "ok")) k <> AxTimeout
     \/ Z.of_nat k = or_default (retries {| timeoutMs := None; retries := Some 1%Z |}) 2) /\
    callPplxApi (Some (js "k")) {| timeoutMs := None; retries := Some 1%Z |}
      (fun j => if (j =? 0)%nat then AxTimeout else AxOk (js "ok"))
    = (Inv.timeout_trace (or_default (timeoutMs {| timeoutMs := None; retries := Some 1%Z |}) 60000) 0 k,
       Inv.outcome_result ((fun j => if (j =? 0)%nat then AxTimeout else AxOk (js "ok")) k)).
Proof.
  assert (H1 : js "k" <> []) by discriminate.
  assert (H2 : (0 <= or_default (retries {| timeoutMs := None; retries := Some 1%Z |}) 2)%Z)
    by (simpl; lia).
  split; [exact H1|]. split; [exact H2|].
  exact (callPplxApi_attempts (js "k") {| timeoutMs := None; retries := Some 1%Z |}
           (fun j => if (j =? 0)%nat then AxTimeout else AxOk (js "ok")) H1 H2).
Defined.

Lemma callPplxApi_negative_retries_witness :
  js "k" <> [] /\
  (or_default (retries {| timeoutMs := None; retries := Some (-1)%Z |}) 2 < 0)%Z /\
  callPplxApi (Some (js "k")) {| timeoutMs := None; retries := Some (-1)%Z |} (fun _ => AxOk (js "ok"))
  = ([], Throw NullThrown).
Proof.
  assert (H1 : js "k" <> []) by discriminate.
  assert (H2 : (or_default (retries {| timeoutMs := None; retries := Some (-1)%Z |}) 2 < 0)%Z)
    by (simpl; lia).
  split; [exact H1|]. split; [exact H2|].
  exact (callPplxApi_negative_retries (js "k") _ (fun _ => AxOk (js "ok")) H1 H2).
Defined.

End TransportProofs.

Module OrchestratorProofs.
Import Keywords Extract.

Lemma createCacheKey_eq (a b : jstr) :
  length b = length a -> take 50 (trim b) = take 50 (trim a) -> createCacheKey b = createCacheKey a.
Proof. intros Hl Ht. unfold createCacheKey. by rewrite Hl, Ht. Qed.

Lemma validation_not_blank (jd : jstr) : isApiValidationJob jd = true -> blank jd = false.
Proof.
  unfold isApiValidationJob, blank. destruct (trim jd); [|done].
  intros H. vm_compute in H. discriminate.
Qed.

(** X3: Job descriptions with the same length and the same first 50 trimmed
    characters share one cache key. After keywords are stored for one of them,
    a call with another (non-blank, not a validation job, nothing pending)
    returns the stored keywords and leaves the state unchanged while the entry
    is less than an hour old. Once the entry is an hour old and the cleaned
    text has at least 20 characters, the call adds the key to the pending set
    and goes to the Transport. *)
Theorem cache_hit_same_key (n2s : jstr -> jstr) (G : gstate) (a : jstr) (t : Z) (ks : list jstr)
    (b : jstr) (now : Z) (obs : nat -> gstate) (tr : js_result jstr) :
  length b = length a -> take 50 (trim b) = take 50 (trim a) ->
  blank b = false -> isApiValidationJob b = false ->
  createCacheKey a ∉ pendingRequests G ->
  ((now - t < CACHE_EXPIRY_MS)%Z ->
   extractKeywordsWithPplx n2s (storeResultInCache G a t ks) b now obs tr
   = (storeResultInCache G a t ks, ks)) /\
  ((CACHE_EXPIRY_MS <= now - t)%Z -> 20 <= length (cleanJobDescription b) ->
   extractKeywordsWithPplx n2s (storeResultInCache G a t ks) b now obs tr
   = extract_after_transport n2s (add_pending (createCacheKey a) (storeResultInCache G a t ks))
       b now tr).
Proof.
  intros Hl Ht Hb Hv Hp. pose proof (createCacheKey_eq a b Hl Ht) as Hk.
  unfold extractKeywordsWithPplx, extract_start. rewrite Hb, Hv. simpl andb. cbv iota.
  rewrite Hk, bool_decide_false by exact Hp. cbv iota.
  unfold extract_fresh. cbv zeta. rewrite Hk. simpl keywordCache. rewrite lookup_insert, decide_True by done.
  simpl ce_timestamp. simpl ce_keywords. split.
  - intros Hn. replace (now - t <? CACHE_EXPIRY_MS)%Z with true by (symmetry; apply Z.ltb_lt; lia).
    reflexivity.
  - intros Hn Hc. replace (now - t <? CACHE_EXPIRY_MS)%Z with false by (symmetry; apply Z.ltb_ge; lia).
    replace (length (cleanJobDescription b) <? 20) with false by (symmetry; apply Nat.ltb_ge; lia).
    reflexivity.
Qed.

Lemma poll_loop_stop (obs : nat -> gstate) (jd : jstr) (k : nat) :
  k <= 10 ->
  (forall j, 1 <= j < k -> createCacheKey jd ∈ pendingRequests (obs j)) ->
  (createCacheKey jd ∉ pendingRequests (obs k) \/ k = 10) ->
  forall d a fuel, 1 <= a -> a + d = k -> d <= fuel ->
  poll_loop obs jd a fuel (obs a) = obs k.
Proof.
  intros Hk Hpend Hlast d. induction d as [|d IH]; intros a fuel Ha Had Hf.
  - rewrite Nat.add_0_r in Had. subst a. destruct fuel as [|f]; [done|]. simpl. unfold poll_again.
    destruct Hlast as [Hn| ->].
    + by rewrite bool_decide_false by exact Hn.
    + by destruct (bool_decide _).
  - destruct fuel as [|f]; [lia|]. simpl. unfold poll_again.
    rewrite bool_decide_true by (apply Hpend; lia).
    replace (a <? 10) with true by (symmetry; apply Nat.ltb_lt; lia). simpl.
    apply IH; lia.
Qed.

(** X4: A call whose key is already pending polls until the key is no longer
    pending, at most 10 times. This assumes the validation shortcut does not
    apply. If the cache then holds an entry for the key, the call returns that
    entry's keywords, whatever the entry's age. It sends no request of its own
    and ends in the state seen at its last poll. *)
Theorem poll_returns_cached (n2s : jstr -> jstr) (G : gstate) (jd : jstr) (now : Z)
    (obs : nat -> gstate) (tr : js_result jstr) (k : nat) (e : cache_entry) :
  blank jd = false -> isApiValidationJob jd && apiValidated G = false ->
  createCacheKey jd ∈ pendingRequests G ->
  1 <= k <= 10 ->
  (forall j, 1 <= j < k -> createCacheKey jd ∈ pendingRequests (obs j)) ->
  (createCacheKey jd ∉ pendingRequests (obs k) \/ k = 10) ->
  keywordCache (obs k) !! createCacheKey jd = Some e ->
  extractKeywordsWithPplx n2s G jd now obs tr = (obs k, ce_keywords e).
Proof.
  intros Hb Hv Hp Hk Hpend Hlast He.
  unfold extractKeywordsWithPplx, extract_start. rewrite Hb, Hv, bool_decide_true by exact Hp.
  cbv iota.
  assert (Hpl : poll_loop obs jd 0 10 G = obs k).
  { change (poll_loop obs jd 0 10 G)
      with (if poll_again G jd 0 then poll_loop obs jd 1 9 (obs 1) else G).
    unfold poll_again at 1. rewrite bool_decide_true by exact Hp. simpl andb. cbv iota.
    apply (poll_loop_stop obs jd k ltac:(lia) Hpend Hlast (k - 1)); lia. }
  rewrite Hpl.
  unfold extract_after_poll. by rewrite He.
Qed.

Lemma delete_add_pending (key : jstr) (G : gstate) :
  key ∉ pendingRequests G -> delete_pending key (add_pending key G) = G.
Proof.
  intros H. destruct G as [v P C]. unfold delete_pending, add_pending. simpl in *. f_equal.
  apply set_eq. intros x. set_solver.
Qed.

(** X5: A non-blank job description whose cleaned text has fewer than 20
    characters gives [], provided the validation shortcut does not apply and
    there is no pending request and no fresh cache entry. It sends no request.
    The global state ends as it began: the finally block removes the pending
    entry added before the length check, and nothing is cached. *)
Theorem short_input_unchanged (n2s : jstr -> jstr) (G : gstate) (jd : jstr) (now : Z)
    (obs : nat -> gstate) (tr : js_result jstr) :
  blank jd = false -> isApiValidationJob jd && apiValidated G = false ->
  createCacheKey jd ∉ pendingRequests G ->
  (forall e, keywordCache G !! createCacheKey jd = Some e ->
             (CACHE_EXPIRY_MS <= now - ce_timestamp e)%Z) ->
  length (cleanJobDescription jd) < 20 ->
  extractKeywordsWithPplx n2s G jd now obs tr = (G, []).
Proof.
  intros Hb Hv Hp He Hc.
  unfold extractKeywordsWithPplx, extract_start. rewrite Hb, Hv, bool_decide_false by exact Hp.
  cbv iota. unfold extract_fresh. cbv zeta.
  replace (length (cleanJobDescription jd) <? 20) with true by (symmetry; apply Nat.ltb_lt; lia).
  destruct (keywordCache G !! createCacheKey jd) as [e|] eqn:E.
  - replace (now - ce_timestamp e <? CACHE_EXPIRY_MS)%Z with false
      by (symmetry; apply Z.ltb_ge; by apply He).
    simpl. by rewrite delete_add_pending.
  - simpl. by rewrite delete_add_pending.
Qed.

(** X6: Once the keywords of one API-validation job have been stored, every
    later validation job returns the fixed list [Software Engineer, React,
    JavaScript]. It sends no request and leaves the state unchanged. *)
Theorem validation_shortcut (n2s : jstr -> jstr) (G : gstate) (a : jstr) (t : Z) (ks : list jstr)
    (b : jstr) (now : Z) (obs : nat -> gstate) (tr : js_result jstr) :
  isApiValidationJob a = true -> isApiValidationJob b = true ->
  extractKeywordsWithPplx n2s (storeResultInCache G a t ks) b now obs tr
  = (storeResultInCache G a t ks, validation_keywords).
Proof.
  intros Ha Hb. unfold extractKeywordsWithPplx, extract_start.
  rewrite (validation_not_blank b Hb), Hb. simpl apiValidated. rewrite Ha, orb_true_r.
  reflexivity.
Qed.

Lemma after_transport_state (n2s : jstr -> jstr) (G1 : gstate) (jd : jstr) (now : Z)
    (tr : js_result jstr) :
  let r := extract_after_transport n2s G1 jd now tr in
  pendingRequests (fst r) = pendingRequests G1 ∖ {[createCacheKey jd]} /\
  (keywordCache (fst r) = keywordCache G1 \/
   keywordCache (fst r) = <[createCacheKey jd := {| ce_keywords := snd r; ce_timestamp := now |}]>
                            (keywordCache G1)) /\
  (apiValidated G1 = true -> apiValidated (fst r) = true).
Proof.
  unfold extract_after_transport, extraction_body. cbv zeta.
  destruct tr as [result|e]; [|simpl; auto].
  destruct (blank result); [simpl; auto|].
  destruct (parse_cascade n2s jd result) as [[ks|]|]; simpl; auto.
  split; [done|]. split; [by right|]. intros ->. done.
Qed.

(** X7: A call made while its key is not pending ends with the pending set as
    it was, on every path. The keyword cache is either unchanged or has the
    key mapped to the returned keywords with the call's timestamp. A true
    apiValidated flag stays true. *)
Theorem call_leaves_pending (n2s : jstr -> jstr) (G : gstate) (jd : jstr) (now : Z)
    (obs : nat -> gstate) (tr : js_result jstr) :
  createCacheKey jd ∉ pendingRequests G ->
  let r := extractKeywordsWithPplx n2s G jd now obs tr in
  pendingRequests (fst r) = pendingRequests G /\
  (keywordCache (fst r) = keywordCache G \/
   keywordCache (fst r) = <[createCacheKey jd := {| ce_keywords := snd r; ce_timestamp := now |}]>
                            (keywordCache G)) /\
  (apiValidated G = true -> apiValidated (fst r) = true).
Proof.
  intros Hp. unfold extractKeywordsWithPplx, extract_start. cbv zeta.
  destruct (blank jd); [simpl; auto|].
  destruct (isApiValidationJob jd && apiValidated G); [simpl; auto|].
  rewrite bool_decide_false by exact Hp. cbv iota.
  unfold extract_fresh. cbv zeta.
  assert (Hgo : let r := finish n2s jd now tr
                  (if length (cleanJobDescription jd) <? 20
                   then FDone (delete_pending (createCacheKey jd) (add_pending (createCacheKey jd) G)) []
                   else FCall (add_pending (createCacheKey jd) G)) in
                pendingRequests (fst r) = pendingRequests G /\
                (keywordCache (fst r) = keywordCache G \/
                 keywordCache (fst r) = <[createCacheKey jd := {| ce_keywords := snd r; ce_timestamp := now |}]>
                                          (keywordCache G)) /\
                (apiValidated G = true -> apiValidated (fst r) = true)).
  { cbv zeta. destruct (length (cleanJobDescription jd) <? 20).
    - cbn [finish fst snd]. rewrite delete_add_pending by exact Hp. auto.
    - simpl finish. destruct (after_transport_state n2s (add_pending (createCacheKey jd) G) jd now tr)
        as [H1 [H2 H3]].
      split; [rewrite H1; simpl; apply set_eq; intros x; set_solver|].
      split; [exact H2|exact H3]. }
  destruct (keywordCache G !! createCacheKey jd) as [e|];
    [destruct (now - ce_timestamp e <? CACHE_EXPIRY_MS)%Z; [simpl; auto|]|]; exact Hgo.
Qed.

(** Two descriptions that differ only after their first 50 characters, of
    the same length: the second is served from the entry the first stored. *)
Lemma cache_hit_same_key_witness :
  let a := js "We are hiring a backend developer to build data pipelines in Go. Apply now!" in
  let b := js "We are hiring a backend developer to build data pipelines in Go. Apply soon" in
  b <> a /\
  length b = length a /\ take 50 (trim b) = take 50 (trim a) /\
  blank b = false /\ isApiValidationJob b = false /\
  (createCacheKey a ∉ pendingRequests init_state) /\
  ((1000 - 0 < CACHE_EXPIRY_MS)%Z ->
   extractKeywordsWithPplx (fun s => s) (storeResultInCache init_state a 0 [js "Go"]) b 1000
     (fun _ => init_state) (Ret (js "[]"))
   = (storeResultInCache init_state a 0 [js "Go"], [js "Go"])) /\
  ((CACHE_EXPIRY_MS <= 1000 - 0)%Z -> 20 <= length (cleanJobDescription b) ->
   extractKeywordsWithPplx (fun s => s) (storeResultInCache init_state a 0 [js "Go"]) b 1000
     (fun _ => init_state) (Ret (js "[]"))
   = extract_after_transport (fun s => s)
       (add_pending (createCacheKey a) (storeResultInCache init_state a 0 [js "Go"])) b 1000
       (Ret (js "[]"))).
Proof.
  cbv zeta.
  assert (H0 : js "We are hiring a backend developer to build data pipelines in Go. Apply soon"
               <> js "We are hiring a backend developer to build data pipelines in Go. Apply now!")
    by discriminate.
  assert (H1 : length (js "We are hiring a backend developer to build data pipelines in Go. Apply soon")
               = length (js "We are hiring a backend developer to build data pipelines in Go. Apply now!"))
    by reflexivity.
  assert (H2 : take 50 (trim (js "We are hiring a backend developer to build data pipelines in Go. Apply soon"))
               = take 50 (trim (js "We are hiring a backend developer to build data pipelines in Go. Apply now!")))
    by (vm_compute; reflexivity).
  assert (H3 : blank (js "We are hiring a backend developer to build data pipelines in Go. Apply soon") = false)
    by (vm_compute; reflexivity).
  assert (H4 : isApiValidationJob (js "We are hiring a backend developer to build data pipelines in Go. Apply soon") = false)
    by (vm_compute; reflexivity).
  assert (H5 : createCacheKey (js "We are hiring a backend developer to build data pipelines in Go. Apply now!")
               ∉ pendingRequests init_state) by (simpl; set_solver).
  split; [exact H0|]. split; [exact H1|]. split; [exact H2|]. split; [exact H3|].
  split; [exact H4|]. split; [exact H5|].
  exact (cache_hit_same_key (fun s => s) init_state _ 0 [js "Go"] _ 1000 (fun _ => init_state)
           (Ret (js "[]")) H1 H2 H3 H4 H5).
Defined.

(** A second caller finds the request pending; on its third poll the first
    call has stored its keywords and left the pending set. *)
Lemma poll_returns_cached_witness :
  let jd := js "We are hiring a backend developer to build data pipelines in Go. Apply now!" in
  let G := add_pending (createCacheKey jd) init_state in
  let e := {| ce_keywords := [js "Go"]; ce_timestamp := 0%Z |} in
  let done_ := storeResultInCache init_state jd 0 [js "Go"] in
  let obs := fun j => if (j <? 3)%nat then G else done_ in
  blank jd = false /\ isApiValidationJob jd && apiValidated G = false /\
  createCacheKey jd ∈ pendingRequests G /\
  1 <= 3 <= 10 /\
  (forall j, 1 <= j < 3 -> createCacheKey jd ∈ pendingRequests (obs j)) /\
  (createCacheKey jd ∉ pendingRequests (obs 3) \/ 3 = 10) /\
  keywordCache (obs 3) !! createCacheKey jd = Some e /\
  extractKeywordsWithPplx (fun s => s) G jd 1000 obs (Ret (js "[]")) = (obs 3, ce_keywords e).
Proof.
  cbv zeta.
  set (jd := js "We are hiring a backend developer to build data pipelines in Go. Apply now!").
  set (G := add_pending (createCacheKey jd) init_state).
  set (done_ := storeResultInCache init_state jd 0 [js "Go"]).
  set (obs := fun j => if (j <? 3)%nat then G else done_).
  assert (H1 : blank jd = false) by (vm_compute; reflexivity).
  assert (H2 : isApiValidationJob jd && apiValidated G = false) by (vm_compute; reflexivity).
  assert (H3 : createCacheKey jd ∈ pendingRequests G) by (simpl; set_solver).
  assert (H4 : 1 <= 3 <= 10) by lia.
  assert (H5 : forall j, 1 <= j < 3 -> createCacheKey jd ∈ pendingRequests (obs j)).
  { intros j Hj. unfold obs. rewrite (proj2 (Nat.ltb_lt j 3)) by lia. exact H3. }
  assert (H6 : createCacheKey jd ∉ pendingRequests (obs 3) \/ 3 = 10) by (left; simpl; set_solver).
  assert (H7 : keywordCache (obs 3) !! createCacheKey jd
               = Some {| ce_keywords := [js "Go"]; ce_timestamp := 0%Z |}).
  { simpl. rewrite lookup_insert. by rewrite decide_True by done. }
  split; [exact H1|]. split; [exact H2|]. split; [exact H3|]. split; [exact H4|].
  split; [exact H5|]. split; [exact H6|]. split; [exact H7|].
  exact (poll_returns_cached (fun s => s) G jd 1000 obs (Ret (js "[]")) 3 _ H1 H2 H3 H4 H5 H6 H7).
Defined.

Lemma short_input_unchanged_witness :
  let jd := js "Go developer" in
  blank jd = false /\ isApiValidationJob jd && apiValidated init_state = false /\
  (createCacheKey jd ∉ pendingRequests init_state) /\
  (forall e, keywordCache init_state !! createCacheKey jd = Some e ->
             (CACHE_EXPIRY_MS <= 1000 - ce_timestamp e)%Z) /\
  length (cleanJobDescription jd) < 20 /\
  extractKeywordsWithPplx (fun s => s) init_state jd 1000 (fun _ => init_state) (Ret (js "[]"))
  = (init_state, []).
Proof.
  cbv zeta.
  assert (H1 : blank (js "Go developer") = false) by (vm_compute; reflexivity).
  assert (H2 : isApiValidationJob (js "Go developer") && apiValidated init_state = false)
    by (vm_compute; reflexivity).
  assert (H3 : createCacheKey (js "Go developer") ∉ pendingRequests init_state) by (simpl; set_solver).
  assert (H4 : forall e, keywordCache init_state !! createCacheKey (js "Go developer") = Some e ->
             (CACHE_EXPIRY_MS <= 1000 - ce_timestamp e)%Z).
  { intros e He. simpl in He. rewrite lookup_empty in He. discriminate. }
  assert (H5 : length (cleanJobDescription (js "Go developer")) < 20) by (vm_compute; lia).
  split; [exact H1|]. split; [exact H2|]. split; [exact H3|]. split; [exact H4|]. split; [exact H5|].
  exact (short_input_unchanged (fun s => s) init_state _ 1000 (fun _ => init_state) (Ret (js "[]"))
           H1 H2 H3 H4 H5).
Defined.

(** After a validation job has been answered, another validation job gets
    the fixed list without any request. *)
Lemma validation_shortcut_witness :
  isApiValidationJob (js "React developer") = true /\
  isApiValidationJob (js "Software Engineer") = true /\
  extractKeywordsWithPplx (fun s => s) (storeResultInCache init_state (js "React developer") 0 [js "React"])
    (js "Software Engineer") 1000 (fun _ => init_state) (Ret (js "[]"))
  = (storeResultInCache init_state (js "React developer") 0 [js "React"], validation_keywords).
Proof.
  assert (H1 : isApiValidationJob (js "React developer") = true) by (vm_compute; reflexivity).
  assert (H2 : isApiValidationJob (js "Software Engineer") = true) by (vm_compute; reflexivity).
  split; [exact H1|]. split; [exact H2|].
  exact (validation_shortcut (fun s => s) init_state _ 0 [js "React"] _ 1000 (fun _ => init_state)
           (Ret (js "[]")) H1 H2).
Defined.

Lemma call_leaves_pending_witness :
  let jd := js "We are hiring a backend developer to build data pipelines in Go. Apply now!" in
  (createCacheKey jd ∉ pendingRequests init_state) /\
  let r := extractKeywordsWithPplx (fun s => s) init_state jd 1000 (fun _ => init_state)
             (Ret (js "[Go]")) in
  pendingRequests (fst r) = pendingRequests init_state /\
  (keywordCache (fst r) = keywordCache init_state \/
   keywordCache (fst r) = <[createCacheKey jd := {| ce_keywords := snd r; ce_timestamp := 1000%Z |}]>
                            (keywordCache init_state)) /\
  (apiValidated init_state = true -> apiValidated (fst r) = true).
Proof.
  cbv zeta.
  assert (H : createCacheKey (js "We are hiring a backend developer to build data pipelines in Go. Apply now!")
              ∉ pendingRequests init_state) by (simpl; set_solver).
  split; [exact H|].
  exact (call_leaves_pending (fun s => s) init_state _ 1000 (fun _ => init_state) _ H).
Defined.

End OrchestratorProofs.

Module CompletenessProofs.
Import Keywords.

Section Lowering.
Variable lower : jstr -> jstr.

Lemma dedup_seen_complete (seen : gset jstr) (l : list jstr) (x : jstr) :
  In x l -> lower x ∈ seen \/ exists y, In y (dedup_seen lower seen l) /\ lower y = lower x.
Proof.
  revert seen. induction l as [|k l IH]; intros seen Hx; [destruct Hx|]. simpl.
  case_bool_decide as Hk.
  - destruct Hx as [<-|Hx]; [by left|]. by apply IH.
  - destruct Hx as [<-|Hx]; [right; exists k; simpl; auto|].
    destruct (IH ({[lower k]} ∪ seen) Hx) as [Hs|[y [Hy Hyx]]].
    + apply elem_of_union in Hs as [Hs|Hs]; [|by left].
      apply elem_of_singleton in Hs. right. exists k. simpl. auto.
    + right. exists y. simpl. auto.
Qed.

Lemma check_terms_complete (keywordSet : gset jstr) (raw jd : jstr) (acc : list jstr)
    (ts : list important_term) (m : list jstr) :
  Forall (fun t => is_Some (Rx.compile (term t))) ts ->
  check_terms lower keywordSet raw jd acc ts = Ret m ->
  (forall x, In x acc -> In x m) /\
  (forall t, In t ts -> includes (sanitized t) jd = true ->
             lower (sanitized t) ∈ keywordSet \/ In (sanitized t) m).
Proof.
  revert acc. induction ts as [|t ts IH]; intros acc Hc Hm; simpl in Hm.
  - injection Hm as <-. split; [done|]. intros t [].
  - inversion Hc as [|? ? [re Hre] Hc']; subst.
    unfold check_term in Hm. case_bool_decide as Hin.
    + destruct (IH acc Hc' Hm) as [H1 H2]. split; [done|].
      intros t' [<-|Ht'] Hi; [by left|]. by apply H2.
    + rewrite Hre in Hm.
      destruct (includes (sanitized t) jd || Rx.test re jd) eqn:Ej;
        [|destruct (Rx.test re raw)].
      1,2: destruct (IH _ Hc' Hm) as [H1 H2]; split;
        [intros x Hx; apply H1, in_or_app; by left
        | intros t' [<-|Ht'] Hi; [right; apply H1, in_or_app; right; simpl; auto | by apply H2]].
      destruct (IH _ Hc' Hm) as [H1 H2]. split; [done|].
      intros t' [<-|Ht'] Hi; [|by apply H2].
      rewrite Hi in Ej. discriminate.
Qed.

Lemma snoc_if_sub (b : bool) (l : list jstr) (x y : jstr) :
  In y l -> In y (if b then l ++ [x] else l).
Proof. intros H. destruct b; [apply in_or_app; by left | done]. Qed.

Lemma snoc_if_mem (A : Prop) `{Decision A} (l : list jstr) (x : jstr) (c : bool) :
  c = true -> A \/ In x (if negb (bool_decide A) && negb (bool_decide (x ∈ l)) && c then l ++ [x] else l).
Proof.
  intros ->. rewrite andb_true_r. case_bool_decide as HA; [by left|right]. simpl.
  case_bool_decide as Hx; simpl.
  - by apply list_elem_of_In.
  - apply in_or_app. right. simpl. auto.
Qed.

Lemma direct_fallbacks_complete (keywordSet : gset jstr) (jd : jstr) (m : list jstr) :
  let out := direct_fallbacks lower keywordSet jd m in
  (forall x, In x m -> In x out) /\
  (includes (js "python") (lower jd) = true -> js "python" ∈ keywordSet \/ In (js "Python") out) /\
  (includes (js "java ") (lower jd) = true -> js "java" ∈ keywordSet \/ In (js "Java") out).
Proof.
  unfold direct_fallbacks. cbv zeta. split; [|split].
  - intros x Hx. by do 3 apply snoc_if_sub.
  - intros Hi.
    lazymatch goal with |- _ \/ In _ (if _ then ?m2 ++ _ else _) =>
      lazymatch m2 with (if _ then ?m1 ++ _ else _) =>
        destruct (snoc_if_mem (js "python" ∈ keywordSet) m1 (js "Python") _ Hi) as [H|H];
        [by left | right; by apply snoc_if_sub]
      end
    end.
  - intros Hi.
    lazymatch goal with |- _ \/ In _ (if _ then ?m2 ++ _ else _) =>
      exact (snoc_if_mem (js "java" ∈ keywordSet) m2 (js "Java") _ Hi)
    end.
Qed.

Lemma keywordSet_of_elem (valid : list jstr) (x : jstr) :
  x ∈ keywordSet_of lower valid -> exists v, In v valid /\ lower v = x.
Proof.
  unfold keywordSet_of. rewrite elem_of_list_to_set, list_elem_of_In, in_map_iff.
  intros [v [Hv Hin]]. by exists v.
Qed.

End Lowering.

(** X8: for every case mapping [lower] that agrees with [to_lower] on
    ASCII text (as [String.prototype.toLowerCase] does),
    validateAndEnrichKeywords never throws. Up to [lower], its output
    contains every string or number keyword of the model (trimmed,
    non-empty) and every important term whose plain form occurs in the job
    description. It also contains a string that [lower] maps to 'python'
    when the lower-cased description contains 'python', and one mapped to
    'java' when it contains 'java '. *)
Theorem enrich_complete (lower n2s : jstr -> jstr) (ks : list jsval) (raw jd : jstr)
    (Hascii : forall s, Forall (fun c => (c < 128)%N) s -> lower s = to_lower s) :
  exists out, validateAndEnrichKeywords lower n2s ks raw jd = Ret out /\
    (forall k, In k (validKeywords n2s ks) -> exists y, In y out /\ lower y = lower k) /\
    (forall t, In t importantTerms -> includes (sanitized t) jd = true ->
       exists y, In y out /\ lower y = lower (sanitized t)) /\
    (includes (js "python") (lower jd) = true -> exists y, In y out /\ lower y = js "python") /\
    (includes (js "java ") (lower jd) = true -> exists y, In y out /\ lower y = js "java").
Proof.
  set (kset := keywordSet_of lower (validKeywords n2s ks)).
  destruct (EnrichProofs.check_terms_ok lower kset raw jd [] importantTerms
              EnrichProofs.importantTerms_compile EnrichProofs.importantTerms_nonempty
              (List.Forall_nil _)) as [m0 [Hm0 _]].
  set (L := validKeywords n2s ks ++ direct_fallbacks lower kset jd m0).
  exists (dedup_seen lower ∅ L).
  assert (Hout : forall x, In x L -> exists y, In y (dedup_seen lower ∅ L) /\ lower y = lower x).
  { intros x Hx. destruct (dedup_seen_complete lower ∅ L x Hx) as [Hs|H]; [set_solver|exact H]. }
  assert (Hup : forall x z, In z L -> lower z = x ->
                exists y, In y (dedup_seen lower ∅ L) /\ lower y = x).
  { intros x z Hz <-. by apply Hout. }
  destruct (check_terms_complete lower kset raw jd [] importantTerms m0
              EnrichProofs.importantTerms_compile Hm0) as [_ Hct].
  destruct (direct_fallbacks_complete lower kset jd m0) as [Hdf [Hpy Hja]].
  split; [unfold validateAndEnrichKeywords, missingTerms; fold kset; by rewrite Hm0|].
  split; [intros k Hk; apply Hout; apply in_or_app; by left|].
  split; [|split].
  - intros t Ht Hi. destruct (Hct t Ht Hi) as [Hs|Hs].
    + destruct (keywordSet_of_elem lower _ _ Hs) as [v [Hv Hvx]].
      apply (Hup _ v); [apply in_or_app; by left | done].
    + apply Hout. apply in_or_app. right. by apply Hdf.
  - intros Hi. destruct (Hpy Hi) as [Hs|Hs].
    + destruct (keywordSet_of_elem lower _ _ Hs) as [v [Hv Hvx]].
      apply (Hup _ v); [apply in_or_app; by left | done].
    + apply (Hup _ (js "Python")); [apply in_or_app; by right|].
      rewrite Hascii; [reflexivity|]. repeat constructor.
  - intros Hi. destruct (Hja Hi) as [Hs|Hs].
    + destruct (keywordSet_of_elem lower _ _ Hs) as [v [Hv Hvx]].
      apply (Hup _ v); [apply in_or_app; by left | done].
    + apply (Hup _ (js "Java")); [apply in_or_app; by right|].
      rewrite Hascii; [reflexivity|]. repeat constructor.
Qed.

Lemma enrich_complete_witness :
  (forall s, Forall (fun c => (c < 128)%N) s -> to_lower s = to_lower s) /\
  exists out, validateAndEnrichKeywords to_lower (fun s => s) [JStr (js "Python")]
                (js "[]") (js "Python and Java developer") = Ret out /\
    (forall k, In k (validKeywords (fun s => s) [JStr (js "Python")]) ->
       exists y, In y out /\ to_lower y = to_lower k) /\
    (forall t, In t importantTerms -> includes (sanitized t) (js "Python and Java developer") = true ->
       exists y, In y out /\ to_lower y = to_lower (sanitized t)) /\
    (includes (js "python") (to_lower (js "Python and Java developer")) = true ->
       exists y, In y out /\ to_lower y = js "python") /\
    (includes (js "java ") (to_lower (js "Python and Java developer")) = true ->
       exists y, In y out /\ to_lower y = js "java").
Proof.
  split; [intros; reflexivity|].
  apply (enrich_complete to_lower (fun s => s) [JStr (js "Python")]
           (js "[]") (js "Python and Java developer")).
  intros; reflexivity.
Defined.

End CompletenessProofs.

Module FormatterExtraProofs.
Import Formatter.

Lemma glyph_pass_out (gs : list N) (skip : bool) (s : jstr) :
  Forall (fun c => (In c s /\ existsb (N.eqb c) gs = false) \/ c = 45%N \/ c = 32%N)
    (glyph_pass gs skip s).
Proof.
  revert skip. induction s as [|c s IH]; intros skip; simpl; [constructor|].
  destruct (skip && is_ws c).
  - eapply Forall_impl; [apply IH|]. intros x [[Hx Hg]|Hx]; [left; split; auto | by right].
  - destruct (existsb (N.eqb c) gs) eqn:E.
    + constructor; [by right; left|]. constructor; [by right; right|].
      eapply Forall_impl; [apply IH|]. intros x [[Hx Hg]|Hx]; [left; split; auto | by right].
    + constructor; [left; split; auto|].
      eapply Forall_impl; [apply IH|]. intros x [[Hx Hg]|Hx]; [left; split; auto | by right].
Qed.

Lemma nl_pass_out (st : nl_state) (s : jstr) :
  Forall (fun c => In c s \/ In c (Inv.nl_buf st) \/ c = 10%N \/ c = 45%N \/ c = 32%N) (nl_pass st s).
Proof.
  revert st. induction s as [|c s IH]; intros st; simpl.
  - destruct st; simpl; try constructor.
    apply List.Forall_forall. intros x Hx. right. left. by apply in_rev.
  - assert (Hw : forall st', Forall (fun x => In x s \/ In x (Inv.nl_buf st') \/ x = 10%N \/ x = 45%N \/ x = 32%N)
                   (nl_pass st' s) ->
                 Inv.nl_buf st' = [] ->
                 Forall (fun x => (c = x \/ In x s) \/ In x (Inv.nl_buf st) \/ x = 10%N \/ x = 45%N \/ x = 32%N)
                   (nl_pass st' s)).
    { intros st' H Hb. eapply Forall_impl; [exact H|]. rewrite Hb. simpl. intuition. }
    destruct st as [|buf|]; simpl.
    + destruct (c =? 10)%N eqn:E.
      * eapply Forall_impl; [apply IH|]. simpl. intros x Hx.
        apply N.eqb_eq in E. subst c. intuition.
      * constructor; [by left; left|]. apply Hw; [apply IH|done].
    + destruct (c =? BULLET)%N.
      * constructor; [by right; right; left|]. constructor; [by right; right; right; left|].
        constructor; [by right; right; right; right|]. apply Hw; [apply IH|done].
      * destruct (is_ws c).
        -- eapply Forall_impl; [apply IH|]. simpl. intros x Hx. intuition.
        -- apply Forall_app. split.
           ++ apply List.Forall_forall. intros x Hx. right. left. by apply in_rev.
           ++ constructor; [by left; left|]. apply Hw; [apply IH|done].
    + destruct (is_ws c); [apply Hw; [apply IH|done]|].
      destruct (c =? 10)%N eqn:E.
      * eapply Forall_impl; [apply IH|]. simpl. intros x Hx.
        apply N.eqb_eq in E. subst c. intuition.
      * constructor; [by left; left|]. apply Hw; [apply IH|done].
Qed.

Lemma final_cleanup_no_bullets (s : jstr) :
  Forall (fun c => c <> BULLET /\ ~ In c GLYPHS) (final_cleanup s).
Proof.
  unfold final_cleanup.
  eapply Forall_impl; [apply nl_pass_out|]. simpl. intros c Hc.
  assert (Hsmall : c = 10%N \/ c = 45%N \/ c = 32%N -> c <> BULLET /\ ~ In c GLYPHS).
  { intros Hc'. split; [unfold BULLET; lia|]. unfold GLYPHS. simpl. lia. }
  destruct Hc as [Hc|[[]|Hc]]; [|by apply Hsmall].
  pose proof (glyph_pass_out GLYPHS false (glyph_pass [BULLET] false s)) as H2.
  rewrite List.Forall_forall in H2. destruct (H2 c Hc) as [[Hc2 Hg2]|Hc2]; [|apply Hsmall; auto].
  pose proof (glyph_pass_out [BULLET] false s) as H1.
  rewrite List.Forall_forall in H1. destruct (H1 c Hc2) as [[_ Hg1]|Hc1]; [|apply Hsmall; auto].
  split.
  - intros ->. vm_compute in Hg1. discriminate.
  - intros Hin. assert (existsb (N.eqb c) GLYPHS = true) as Ht
      by (apply existsb_exists; exists c; split; [done|apply N.eqb_refl]).
    congruence.
Qed.

Lemma MARKER_no_bullets : Forall (fun c => c <> BULLET /\ ~ In c GLYPHS) MARKER.
Proof. unfold MARKER, BULLET, GLYPHS. simpl. repeat constructor; simpl; lia. Qed.

(** X9: For non-blank content, when the Transport resolves and the cleaned
    model output is not blank, the text fixResumeFormatting returns contains
    no bullet character and none of the glyphs it rewrites. This holds
    whatever the model wrote, including the original remainder appended to
    long content. *)
Theorem format_success_no_bullets (pp : jstr -> jstr) (apiKey : option jstr)
    (ax : nat -> axios_outcome) (rc response : jstr) :
  blank rc = false ->
  snd (Transport.callPplxApi apiKey format_options ax) = Ret response ->
  blank (cleaned_prefix pp response) = false ->
  Forall (fun c => c <> BULLET /\ ~ In c GLYPHS) (fixResumeFormatting pp apiKey ax rc).
Proof.
  intros Hb Hr Hp. unfold fixResumeFormatting. rewrite Hb, Hr. cbv zeta.
  unfold format_response. cbv zeta. rewrite Hp.
  apply Forall_app. split; [apply final_cleanup_no_bullets | apply MARKER_no_bullets].
Qed.

Lemma cleanContent_marked (cc : jstr) :
  index_of MARKER (cc ++ MARKER) = Some (length cc) -> cleanContent (cc ++ MARKER) = cc.
Proof.
  intros Hi. unfold cleanContent. rewrite ends_with_app. unfold replace_first. rewrite Hi.
  rewrite take_app_length, drop_ge by (rewrite length_app; lia). by rewrite !app_nil_r.
Qed.

(** X10: When the Transport rejects, the content is not blank, and the marker
    occurs in cleanContent + marker only at the appended end, formatting the
    output again gives the same output: the marker is stripped and appended
    again. *)
Theorem format_failure_idempotent (pp : jstr -> jstr) (apiKey : option jstr)
    (ax : nat -> axios_outcome) (rc : jstr) (e : js_error) :
  snd (Transport.callPplxApi apiKey format_options ax) = Throw e ->
  blank rc = false ->
  index_of MARKER (cleanContent rc ++ MARKER) = Some (length (cleanContent rc)) ->
  fixResumeFormatting pp apiKey ax (fixResumeFormatting pp apiKey ax rc)
  = fixResumeFormatting pp apiKey ax rc.
Proof.
  intros Ht Hb Hi.
  assert (H1 : fixResumeFormatting pp apiKey ax rc = cleanContent rc ++ MARKER).
  { unfold fixResumeFormatting. rewrite Hb, Ht. reflexivity. }
  rewrite H1. unfold fixResumeFormatting.
  rewrite ends_with_marker_not_blank by apply ends_with_app. rewrite Ht.
  by rewrite cleanContent_marked.
Qed.

(** X11: The text sent to the model is at most 6004 characters long (6000 plus
    ' ...' or '...'). It has the same first 6000 characters as the content,
    and it is the content itself when that has at most 6000 characters. *)
Theorem truncatedContent_bounds (c : jstr) :
  length (truncatedContent c) <= MAX_CONTENT_LENGTH + 4 /\
  take MAX_CONTENT_LENGTH (truncatedContent c) = take MAX_CONTENT_LENGTH c /\
  (length c <= MAX_CONTENT_LENGTH -> truncatedContent c = c).
Proof.
  unfold truncatedContent.
  destruct (MAX_CONTENT_LENGTH <? length c) eqn:E.
  - apply Nat.ltb_lt in E. split; [|split].
    + rewrite length_app, length_take. destruct (isHtml c);
      [change (length (js " ...")) with 4 | change (length (js "...")) with 3]; lia.
    + rewrite take_app_le by (rewrite length_take; lia). by rewrite take_take, Nat.min_id.
    + lia.
  - apply Nat.ltb_ge in E. split; [lia|]. split; done.
Qed.

(** X12: For non-blank content, the earlier fixResumeFormatting returns text
    that ends with the marker, after at most one request. Run on its own
    output, it returns that output unchanged and sends no request. *)
Theorem legacy_marker_rerun (apiKey : option jstr) (ax : axios_outcome) (rc : jstr) :
  blank rc = false ->
  ends_with MARKER (fst (LegacyFormatter.fixResumeFormatting apiKey ax rc)) = true /\
  snd (LegacyFormatter.fixResumeFormatting apiKey ax rc) <= 1 /\
  LegacyFormatter.fixResumeFormatting apiKey ax (fst (LegacyFormatter.fixResumeFormatting apiKey ax rc))
  = (fst (LegacyFormatter.fixResumeFormatting apiKey ax rc), 0).
Proof.
  intros Hb.
  assert (He : ends_with MARKER (fst (LegacyFormatter.fixResumeFormatting apiKey ax rc)) = true).
  { unfold LegacyFormatter.fixResumeFormatting. rewrite Hb.
    destruct (ends_with MARKER rc) eqn:E; [exact E|].
    destruct apiKey as [[|k ks]|]; simpl; try apply ends_with_app.
    destruct ax; simpl; try apply ends_with_app.
    unfold LegacyFormatter.format_response. cbv zeta.
    lazymatch goal with |- context [if blank ?x then _ else _] => destruct (blank x) end;
      apply ends_with_app. }
  split; [exact He|]. split.
  - unfold LegacyFormatter.fixResumeFormatting. rewrite Hb.
    destruct (ends_with MARKER rc); [simpl; lia|].
    destruct apiKey as [[|k ks]|]; simpl; try lia. destruct ax; simpl; lia.
  - unfold LegacyFormatter.fixResumeFormatting at 1.
    rewrite ends_with_marker_not_blank, He by exact He. reflexivity.
Qed.

(** The model answers with bullet glyphs; the formatted text has none. *)
Lemma format_success_no_bullets_witness :
  blank (BULLET :: js " Led a team") = false /\
  snd (Transport.callPplxApi (Some (js "k")) format_options
         (fun _ => AxOk (BULLET :: js " Led a team" ++ [10%N; 9679%N] ++ js " Shipped"))) =
    Ret (BULLET :: js " Led a team" ++ [10%N; 9679%N] ++ js " Shipped") /\
  blank (cleaned_prefix (fun s => s) (BULLET :: js " Led a team" ++ [10%N; 9679%N] ++ js " Shipped"))
    = false /\
  Forall (fun c => c <> BULLET /\ ~ In c GLYPHS)
    (fixResumeFormatting (fun s => s) (Some (js "k"))
       (fun _ => AxOk (BULLET :: js " Led a team" ++ [10%N; 9679%N] ++ js " Shipped"))
       (BULLET :: js " Led a team")).
Proof.
  assert (H1 : blank (BULLET :: js " Led a team") = false) by (vm_compute; reflexivity).
  assert (H2 : snd (Transport.callPplxApi (Some (js "k")) format_options
         (fun _ => AxOk (BULLET :: js " Led a team" ++ [10%N; 9679%N] ++ js " Shipped"))) =
    Ret (BULLET :: js " Led a team" ++ [10%N; 9679%N] ++ js " Shipped")) by reflexivity.
  assert (H3 : blank (cleaned_prefix (fun s => s)
                        (BULLET :: js " Led a team" ++ [10%N; 9679%N] ++ js " Shipped")) = false)
    by (vm_compute; reflexivity).
  split; [exact H1|]. split; [exact H2|]. split; [exact H3|].
  exact (format_success_no_bullets (fun s => s) (Some (js "k")) _ _ _ H1 H2 H3).
Defined.

(** Without a key, formatting twice gives the same text as formatting once. *)
Lemma format_failure_idempotent_witness :
  snd (Transport.callPplxApi None format_options (fun _ => AxTimeout)) = Throw ApiKeyNotFound /\
  blank (js "Jane Doe") = false /\
  index_of MARKER (cleanContent (js "Jane Doe") ++ MARKER) = Some (length (cleanContent (js "Jane Doe"))) /\
  fixResumeFormatting (fun s => s) None (fun _ => AxTimeout)
    (fixResumeFormatting (fun s => s) None (fun _ => AxTimeout) (js "Jane Doe"))
  = fixResumeFormatting (fun s => s) None (fun _ => AxTimeout) (js "Jane Doe").
Proof.
  assert (H1 : snd (Transport.callPplxApi None format_options (fun _ => AxTimeout)) = Throw ApiKeyNotFound)
    by reflexivity.
  assert (H2 : blank (js "Jane Doe") = false) by reflexivity.
  assert (H3 : index_of MARKER (cleanContent (js "Jane Doe") ++ MARKER)
               = Some (length (cleanContent (js "Jane Doe")))) by (vm_compute; reflexivity).
  split; [exact H1|]. split; [exact H2|]. split; [exact H3|].
  exact (format_failure_idempotent (fun s => s) None (fun _ => AxTimeout) _ _ H1 H2 H3).
Defined.

Lemma legacy_marker_rerun_witness :
  blank (js "Jane Doe") = false /\
  ends_with MARKER (fst (LegacyFormatter.fixResumeFormatting (Some (js "k")) (AxOk (js "Jane Doe"))
                          (js "Jane Doe"))) = true /\
  snd (LegacyFormatter.fixResumeFormatting (Some (js "k")) (AxOk (js "Jane Doe")) (js "Jane Doe")) <= 1 /\
  LegacyFormatter.fixResumeFormatting (Some (js "k")) (AxOk (js "Jane Doe"))
    (fst (LegacyFormatter.fixResumeFormatting (Some (js "k")) (AxOk (js "Jane Doe")) (js "Jane Doe")))
  = (fst (LegacyFormatter.fixResumeFormatting (Some (js "k")) (AxOk (js "Jane Doe")) (js "Jane Doe")), 0).
Proof.
  assert (H : blank (js "Jane Doe") = false) by reflexivity.
  split; [exact H|].
  exact (legacy_marker_rerun (Some (js "k")) (AxOk (js "Jane Doe")) _ H).
Defined.

End FormatterExtraProofs.

Module VisualizerProofs.
Import Visualizer.

Lemma index_of_single_none (x : N) (s : jstr) (i : nat) :
  index_of_from [x] s i = None <-> existsb (fun d => (x =? d)%N) s = false.
Proof.
  revert i. induction s as [|c s IH]; intros i; simpl; [done|].
  rewrite andb_true_r. destruct (x =? c)%N; simpl; [done|]. apply IH.
Qed.

Lemma strip_tags_sub (f : nat) (s : jstr) (c : N) : In c (strip_tags f s) -> In c s.
Proof.
  revert s. induction f as [|f IH]; intros s; simpl; [done|].
  destruct s as [|d r]; [done|].
  destruct (d =? 60)%N; [destruct (index_of [62%N] r) as [n|]|].
  - intros H. apply IH in H. right. rewrite <- (take_drop (S n) r), in_app_iff. by right.
  - intros [->|H]; [by left|]. right. by apply IH.
  - intros [->|H]; [by left|]. right. by apply IH.
Qed.

Lemma strip_tags_tag_free (f : nat) (s : jstr) :
  length s <= f -> Inv.tag_free (strip_tags f s) = true.
Proof.
  revert s. induction f as [|f IH]; intros s Hl; simpl.
  - destruct s; [done|simpl in Hl; lia].
  - destruct s as [|c r]; [done|]. simpl in Hl.
    destruct (c =? 60)%N eqn:E.
    + destruct (index_of [62%N] r) as [j|] eqn:Ej.
      * apply IH. rewrite length_drop. lia.
      * simpl. rewrite E, IH by lia. rewrite andb_true_r.
        apply negb_true_iff. apply not_true_iff_false. intros Hex.
        apply existsb_exists in Hex as [d [Hd Hd62]].
        apply strip_tags_sub in Hd.
        apply (index_of_single_none 62 r 0) in Ej.
        assert (existsb (fun d => (62 =? d)%N) r = true) by (apply existsb_exists; eauto).
        congruence.
    + simpl. rewrite E. simpl. apply IH. lia.
Qed.

Lemma strip_tags_tag_free_id (f : nat) (s : jstr) :
  Inv.tag_free s = true -> strip_tags f s = s.
Proof.
  revert s. induction f as [|f IH]; intros s Ht; simpl; [done|].
  destruct s as [|c r]; [done|]. simpl in Ht. apply andb_prop in Ht as [Hc Hr].
  destruct (c =? 60)%N eqn:E.
  - apply negb_true_iff in Hc. unfold index_of.
    replace (index_of_from [62%N] r 0) with (@None nat) by (symmetry; by apply index_of_single_none).
    by rewrite IH.
  - by rewrite IH.
Qed.

(** X13: The tag removal replace(/<[^>]*>/g, '') leaves no '<' that has a '>'
    after it. Applying it again to its output changes nothing. *)
Theorem strip_tags_clean (s : jstr) :
  Inv.tag_free (strip_tags (length s) s) = true /\
  strip_tags (length (strip_tags (length s) s)) (strip_tags (length s) s) = strip_tags (length s) s.
Proof.
  pose proof (strip_tags_tag_free (length s) s (le_n _)) as H.
  split; [exact H|]. by apply strip_tags_tag_free_id.
Qed.

Lemma lower_unit_not_upper (c : N) : ((65 <=? lower_unit c) && (lower_unit c <=? 90))%N = false.
Proof.
  unfold lower_unit.
  destruct (((65 <=? c) && (c <=? 90)) || ((192 <=? c) && (c <=? 222) && negb (c =? 215)))%N eqn:E.
  - apply orb_true_iff in E as [E|E].
    + apply andb_prop in E as [E1 E2]. apply N.leb_le in E1, E2.
      apply andb_false_iff. right. apply N.leb_gt. lia.
    + apply andb_prop in E as [E _]. apply andb_prop in E as [E1 _]. apply N.leb_le in E1.
      apply andb_false_iff. right. apply N.leb_gt. lia.
  - apply orb_false_iff in E as [E _]. exact E.
Qed.

Lemma split_ws_go_chars (P : N -> Prop) (b : bool) (s cur : jstr) :
  Forall P s -> Forall P cur -> Forall (Forall P) (split_ws_go b s cur).
Proof.
  revert b cur. induction s as [|c s IH]; intros b cur Hs Hcur; simpl.
  - constructor; [by apply Forall_rev|constructor].
  - inversion Hs as [|? ? Hc Hs']; subst. destruct (is_ws c).
    + destruct b; [by apply IH|]. constructor; [by apply Forall_rev|]. apply IH; [done|constructor].
    + apply IH; [done|by constructor].
Qed.

Lemma unique_spec (seen : gset jstr) (xs : list jstr) :
  NoDup (unique seen xs) /\ (forall x, In x (unique seen xs) -> In x xs /\ x ∉ seen).
Proof.
  revert seen. induction xs as [|x xs IH]; intros seen; simpl; [split; [constructor|done]|].
  case_bool_decide as Hx.
  - destruct (IH seen) as [Hn Hi]. split; [done|]. intros y Hy. apply Hi in Hy as [? ?]. auto.
  - destruct (IH ({[x]} ∪ seen)) as [Hn Hi]. split.
    + constructor; [|done]. intros Hin. apply list_elem_of_In, Hi in Hin as [_ Hin]. set_solver.
    + intros y [<-|Hy]; [auto|]. apply Hi in Hy as [? ?]. split; [auto|set_solver].
Qed.

(** X14: extractKeywordsLocally returns at most 20 distinct words. Each has
    more than 3 characters, is not one of the listed common words, and
    consists only of word characters that are not upper-case ASCII letters. *)
Theorem local_keywords_shape (text : jstr) :
  length (extractKeywordsLocally text) <= 20 /\
  NoDup (extractKeywordsLocally text) /\
  Forall (fun w => 3 < length w /\ (w ∉ commonWords) /\ Forall (fun c => Inv.lower_word_unit c = true) w)
    (extractKeywordsLocally text).
Proof.
  unfold extractKeywordsLocally. cbv zeta.
  set (cands := List.filter _ _).
  destruct (unique_spec ∅ cands) as [Hnd Hin].
  split; [rewrite length_take; lia|]. split.
  - rewrite <- (take_drop 20 (unique ∅ cands)) in Hnd. by apply NoDup_app in Hnd as [? _].
  - apply List.Forall_forall. intros w Hw.
    assert (Hw2 : In w (unique ∅ cands))
      by (rewrite <- (take_drop 20 (unique ∅ cands)); apply in_or_app; by left).
    apply Hin in Hw2 as [Hw' _].
    unfold cands in Hw'. apply filter_In in Hw' as [Hw' Hf].
    apply andb_prop in Hf as [Hl Hc]. apply Nat.ltb_lt in Hl. apply negb_true_iff in Hc.
    split; [done|]. split; [intros Hcw; rewrite bool_decide_true in Hc by done; discriminate|].
    apply in_map_iff in Hw' as [w0 [<- Hw0]].
    assert (Hall : Forall (fun c => ((65 <=? c) && (c <=? 90))%N = false)
                     (to_lower (strip_tags (length text) text))).
    { unfold to_lower. apply List.Forall_map, List.Forall_forall. intros c _. apply lower_unit_not_upper. }
    pose proof (split_ws_go_chars _ false _ [] Hall (List.Forall_nil _)) as Hsp.
    rewrite List.Forall_forall in Hsp. specialize (Hsp w0 Hw0).
    apply List.Forall_forall. intros c Hcin. apply filter_In in Hcin as [Hcin Hwc].
    rewrite List.Forall_forall in Hsp. unfold Inv.lower_word_unit. rewrite Hwc, (Hsp c Hcin). done.
Qed.

Lemma keep_not_removed (removed : gset jstr) (ks : list jstr) :
  Forall (fun k => k ∉ removed) (List.filter (fun k => negb (bool_decide (k ∈ removed))) ks).
Proof.
  apply List.Forall_forall. intros k Hk. apply filter_In in Hk as [_ Hk].
  apply negb_true_iff, bool_decide_eq_false in Hk. exact Hk.
Qed.

(** X16: No keyword list that getKeywords sets contains a removed keyword. In
    checkMatchedKeywords the active keywords contain no removed keyword, and
    the matched keywords are among the active ones, so the match percentage is
    at most 100. *)
Theorem removed_never_listed (api : jstr -> list jstr) (V : vis_state) (jobDesc : jstr)
    (removed : gset jstr) (ks : list jstr) (resume : jstr) :
  (forall out, getKeywords api V jobDesc = Some out -> Forall (fun k => k ∉ removedKeywords V) out) /\
  incl (fst (checkMatchedKeywords removed ks resume)) (snd (checkMatchedKeywords removed ks resume)) /\
  length (fst (checkMatchedKeywords removed ks resume))
    <= length (snd (checkMatchedKeywords removed ks resume)) /\
  Forall (fun k => k ∉ removed) (snd (checkMatchedKeywords removed ks resume)).
Proof.
  split; [|split; [|split]].
  - intros out. unfold getKeywords. cbv zeta.
    destruct (length (trim jobDesc) <? 50); [intros [= <-]; constructor|].
    lazymatch goal with |- context [if ?b then None else _] => destruct b; [done|] end.
    lazymatch goal with |- context [match ?m with [] => _ | _ :: _ => _ end] => destruct m as [|k0 l0] end;
      intros Hs; injection Hs as Hs; subst out;
      [apply keep_not_removed|apply (keep_not_removed _ (k0 :: l0))].
  - unfold checkMatchedKeywords. simpl. intros k Hk. by apply filter_In in Hk as [? _].
  - unfold checkMatchedKeywords. simpl. apply filter_length_le.
  - apply keep_not_removed.
Qed.

(** X17: getKeywords skips a job description of at least 50 trimmed characters
    when it has the same length and the same first 50 trimmed characters as
    the last processed one. It sets no keywords, even when the texts differ
    later on. *)
Theorem getKeywords_same_fingerprint (api : jstr -> list jstr) (V : vis_state) (jobDesc : jstr) :
  50 <= length (trim jobDesc) ->
  length jobDesc = length (lastProcessedJob V) ->
  take 50 (trim jobDesc) = take 50 (trim (lastProcessedJob V)) ->
  getKeywords api V jobDesc = None.
Proof.
  intros Hl Hlen Ht. unfold getKeywords. cbv zeta.
  replace (length (trim jobDesc) <? 50) with false by (symmetry; apply Nat.ltb_ge; lia).
  replace (bool_decide (createFingerprint jobDesc = createFingerprint (lastProcessedJob V))) with true.
  - by rewrite orb_true_r.
  - symmetry. apply bool_decide_eq_true. unfold createFingerprint, Extract.createCacheKey.
    by rewrite Hlen, Ht.
Qed.

(** An edited description with the same length and first 50 characters as
    the last one processed is skipped. *)
Lemma getKeywords_same_fingerprint_witness :
  let V := {| useApiKeywords := true; isValidated := true; removedKeywords := ∅;
              lastProcessedJob := js "We are hiring a backend developer to build data pipelines in Go. Apply now!";
              processingJob := [] |} in
  let jd := js "We are hiring a backend developer to build data pipelines in Go. Apply soon" in
  50 <= length (trim jd) /\ length jd = length (lastProcessedJob V) /\
  take 50 (trim jd) = take 50 (trim (lastProcessedJob V)) /\
  getKeywords (fun _ => [js "Go"]) V jd = None.
Proof.
  cbv zeta.
  assert (H1 : 50 <= length (trim (js "We are hiring a backend developer to build data pipelines in Go. Apply soon")))
    by (vm_compute; lia).
  assert (H2 : length (js "We are hiring a backend developer to build data pipelines in Go. Apply soon")
               = length (js "We are hiring a backend developer to build data pipelines in Go. Apply now!"))
    by reflexivity.
  assert (H3 : take 50 (trim (js "We are hiring a backend developer to build data pipelines in Go. Apply soon"))
               = take 50 (trim (js "We are hiring a backend developer to build data pipelines in Go. Apply now!")))
    by (vm_compute; reflexivity).
  split; [exact H1|]. split; [exact H2|]. split; [exact H3|].
  exact (getKeywords_same_fingerprint (fun _ => [js "Go"])
           {| useApiKeywords := true; isValidated := true; removedKeywords := ∅;
              lastProcessedJob := js "We are hiring a backend developer to build data pipelines in Go. Apply now!";
              processingJob := [] |} _ H1 H2 H3).
Defined.

End VisualizerProofs.

Module LegacyExtractProofs.
Import Keywords LegacyExtract.

Lemma nonempty_filter_len (f : jstr -> jstr) (l : list jstr) :
  Forall (fun k => k <> []) (List.filter (fun k => negb (length k =? 0)) l).
Proof.
  apply List.Forall_forall. intros k Hk. apply filter_In in Hk as [_ Hk].
  intros ->. discriminate.
Qed.

Lemma string_keywords_nonempty (vs : list jsval) :
  Forall (fun k => k <> []) (string_keywords vs).
Proof.
  induction vs as [|v vs IH]; [constructor|].
  unfold string_keywords. simpl. fold (string_keywords vs).
  destruct v as [| | | |s|]; try exact IH.
  destruct (length s =? 0) eqn:E; [exact IH|].
  constructor; [|exact IH]. intros ->. discriminate.
Qed.

Lemma In_take_In {A} (n : nat) (x : A) (l : list A) : In x (take n l) -> In x l.
Proof.
  revert n. induction l as [|y l IH]; intros [|n]; simpl; try tauto.
  intros [->|H]; [by left|right; eauto].
Qed.

Lemma parse_stages_nonempty (result : jstr) :
  Forall (fun k => k <> []) (parse_stages result).
Proof.
  assert (H35 : Forall (fun k => k <> [])
    (if includes [44%N] result && negb (length (comma_candidates result) =? 0)
     then comma_candidates result
     else match quoted_phrases result with
          | _ :: _ as qs => phrases_of qs
          | [] => match possibleSkills result with
                  | [] => []
                  | ps => take 10 ps
                  end
          end)).
  { destruct (_ && _).
    - apply nonempty_filter_len; exact id.
    - destruct (quoted_phrases result) as [|q qs].
      + destruct (possibleSkills result) as [|p ps] eqn:Hp; [constructor|].
        apply List.Forall_forall. intros k Hk. apply In_take_In in Hk.
        rewrite <- Hp in Hk. unfold possibleSkills in Hk. apply filter_In in Hk as [_ Hk].
        apply andb_true_iff in Hk as [Hk _]. intros ->. discriminate.
      + apply nonempty_filter_len; exact id. }
  unfold parse_stages.
  destruct (Json.parse result) as [[]|]; try apply string_keywords_nonempty;
  (destruct (bracket_match result) as [a|]; [|exact H35]);
  (destruct (Json.parse a) as [[]|]; [exact H35|exact H35|exact H35|exact H35|apply string_keywords_nonempty|exact H35|constructor]).
Qed.

(** X18: The earlier extractKeywordsWithPplx returns only non-empty strings.
    It sends one request exactly when the description is not blank, its
    cleaned text has at least 20 characters and an API key is set; otherwise
    it sends none. *)
Theorem legacy_extract_shape (apiKey : option jstr) (ax : axios_outcome) (jd : jstr) :
  Forall (fun k => k <> []) (fst (extractKeywordsWithPplx apiKey ax jd)) /\
  (snd (extractKeywordsWithPplx apiKey ax jd) = 1 <->
   blank jd = false /\ 20 <= length (Extract.cleanJobDescription jd) /\
   exists k, apiKey = Some k /\ k <> []) /\
  snd (extractKeywordsWithPplx apiKey ax jd) <= 1.
Proof.
  unfold extractKeywordsWithPplx.
  destruct (blank jd); [simpl; split; [constructor|split; [split; [discriminate|intros [? _]; discriminate]|lia]]|].
  destruct (length (Extract.cleanJobDescription jd) <? 20) eqn:El.
  { apply Nat.ltb_lt in El. simpl. split; [constructor|split; [split; [discriminate|lia]|lia]]. }
  apply Nat.ltb_ge in El.
  destruct apiKey as [[|c k]|].
  - simpl. split; [constructor|split; [split; [discriminate|intros (_ & _ & k & [= <-] & Hk); done]|lia]].
  - split; [|split; [split; [intros _; split; [done|split; [lia|exists (c :: k); done]]|intros _]|]].
    + destruct ax as [res| |]; simpl; try constructor.
      destruct (blank res); [constructor|apply parse_stages_nonempty].
    + by destruct ax.
    + by destruct ax.
  - simpl. split; [constructor|split; [split; [discriminate|intros (_ & _ & k & [=] & _)]|lia]].
Qed.

(** X19: In the earlier extractKeywordsWithPplx, if the answer is not a JSON
    array but has a bracketed part that is not valid JSON, the call returns
    []. JSON.parse throws, and the catch is reached before the comma and
    quoted-phrase fallbacks run. *)
Theorem legacy_bad_bracket (apiKey : option jstr) (jd result arrayText : jstr) :
  (forall vs, Json.parse result <> Some (JArr vs)) ->
  bracket_match result = Some arrayText ->
  Json.parse arrayText = None ->
  fst (extractKeywordsWithPplx apiKey (AxOk result) jd) = [].
Proof.
  intros H1 H2 H3. unfold extractKeywordsWithPplx.
  destruct (blank jd); [done|]. destruct (_ <? 20); [done|].
  destruct apiKey as [[|c k]|]; [done| |done]. simpl.
  destruct (blank result); [done|]. unfold parse_stages.
  destruct (Json.parse result) as [[]|] eqn:E; try (rewrite H2, H3; done).
  exfalso. by eapply H1.
Qed.

(** The model writes a bracketed list without quotes: the bracketed part
    does not parse and the call returns [] (the comma stage is not reached). *)
Lemma legacy_bad_bracket_witness :
  (forall vs, Json.parse (js "Keywords: [React, Node]") <> Some (JArr vs)) /\
  bracket_match (js "Keywords: [React, Node]") = Some (js "[React, Node]") /\
  Json.parse (js "[React, Node]") = None /\
  comma_candidates (js "Keywords: [React, Node]") = [js "Keywords: React"; js "Node"] /\
  fst (extractKeywordsWithPplx (Some (js "key")) (AxOk (js "Keywords: [React, Node]"))
         (js "Senior React developer with Node experience")) = [].
Proof.
  assert (H1 : forall vs, Json.parse (js "Keywords: [React, Node]") <> Some (JArr vs))
    by (intros vs; vm_compute; discriminate).
  assert (H2 : bracket_match (js "Keywords: [React, Node]") = Some (js "[React, Node]"))
    by (vm_compute; reflexivity).
  assert (H3 : Json.parse (js "[React, Node]") = None) by (vm_compute; reflexivity).
  split; [exact H1|]. split; [exact H2|]. split; [exact H3|]. split; [vm_compute; reflexivity|].
  exact (legacy_bad_bracket (Some (js "key")) (js "Senior React developer with Node experience") _ _
           H1 H2 H3).
Defined.

End LegacyExtractProofs.
